(** * AWSBackend: a filesystem-like view of an S3 object store

    Shallow embedding of [mmengine/fileio/backends/aws_backend.py].

    Python [str] and [bytes] values are modelled as [string]; the set
    [duplicate_paths] as a [gset string]; raised exceptions as values of
    [exn]; the boto3 client as a record of oracles, every call to which
    is recorded in a request log; the local file system as a
    [gmap string string] from paths to contents.  Methods run in the
    monad [M], which threads the world and stops at the first exception.
    The generator that [list_dir_or_file] returns is run to exhaustion
    with fuel, one unit for every paginator it starts. *)

From Stdlib Require Import Ascii ZArith.
From stdpp Require Import base list strings gmap sets.

#[local] Set Warnings "-clear-no-such-hyp".

Local Open Scope Z_scope.
Local Open Scope nat_scope.

(** ** Python string primitives *)

Module Py.

Definition slash : ascii := "/"%char.
Definition backslash : ascii := "\"%char.
Definition newline : ascii := "010"%char.

(** [s.startswith(p)] *)
Fixpoint startswith (s p : string) : bool :=
  match p, s with
  | EmptyString, _ => true
  | String _ _, EmptyString => false
  | String a p', String b s' => if Ascii.eqb a b then startswith s' p' else false
  end.

(** [s.endswith(x)]: [x] is a suffix of [s] when it is [s] itself or a
    suffix of the tail of [s]. *)
Fixpoint endswith (s x : string) : bool :=
  String.eqb s x ||
  match s with
  | EmptyString => false
  | String _ s' => endswith s' x
  end.

(** [s[n:]] *)
Fixpoint slice_from (n : nat) (s : string) : string :=
  match n, s with
  | 0, _ => s
  | S _, EmptyString => EmptyString
  | S n', String _ s' => slice_from n' s'
  end.

(** [s[:-1]] *)
Fixpoint drop_last (s : string) : string :=
  match s with
  | EmptyString => EmptyString
  | String _ EmptyString => EmptyString
  | String c s' => String c (drop_last s')
  end.

(** [s.split(sep)] for a one-character separator: never empty. *)
Fixpoint split (sep : ascii) (s : string) : list string :=
  match s with
  | EmptyString => [EmptyString]
  | String c s' =>
      if Ascii.eqb c sep then EmptyString :: split sep s'
      else match split sep s' with
           | h :: t => String c h :: t
           | [] => [String c EmptyString]
           end
  end.

(** [s.split(sep, maxsplit=1)] *)
Fixpoint split1 (sep : ascii) (s : string) : list string :=
  match s with
  | EmptyString => [EmptyString]
  | String c s' =>
      if Ascii.eqb c sep then [EmptyString; s']
      else match split1 sep s' with
           | h :: t => String c h :: t
           | [] => [String c EmptyString]
           end
  end.

(** [sep.join(l)] *)
Fixpoint join (sep : string) (l : list string) : string :=
  match l with
  | [] => EmptyString
  | [x] => x
  | x :: l' => x +:+ sep +:+ join sep l'
  end.

(** [s.replace(old, new)] for a non-empty [old]: scan from the left,
    [skip] counting the characters of a match still to be dropped. *)
Fixpoint replace_scan (old new : string) (skip : nat) (s : string) : string :=
  match s with
  | EmptyString => EmptyString
  | String c s' =>
      match skip with
      | S k => replace_scan old new k s'
      | 0 =>
          if startswith s old
          then new +:+ replace_scan old new (String.length old - 1) s'
          else String c (replace_scan old new 0 s')
      end
  end.

(** [s.replace("", new)]: [new] goes before every character and at the end. *)
Fixpoint replace_empty (new : string) (s : string) : string :=
  match s with
  | EmptyString => new
  | String c s' => new +:+ String c (replace_empty new s')
  end.

Definition replace (s old new : string) : string :=
  match old with
  | EmptyString => replace_empty new s
  | String _ _ => replace_scan old new 0 s
  end.

(** [re.sub(r'\\+', '/', s)]: every run of backslashes becomes one slash. *)
Fixpoint sub_backslashes (in_run : bool) (s : string) : string :=
  match s with
  | EmptyString => EmptyString
  | String c s' =>
      if Ascii.eqb c backslash
      then if in_run then sub_backslashes true s'
           else String slash (sub_backslashes true s')
      else String c (sub_backslashes false s')
  end.

(** The longest prefix without a newline: what a greedy [.+] or [.*]
    can cover, since [.] matches every character but the newline. *)
Fixpoint dot_run (s : string) : string :=
  match s with
  | EmptyString => EmptyString
  | String c s' => if Ascii.eqb c newline then EmptyString else String c (dot_run s')
  end.

(** [re.compile('s3://(.+)').match(s)], giving [groups()[0]]. *)
Definition match_s3 (s : string) : option string :=
  if startswith s "s3://"
  then match dot_run (slice_from 5 s) with
       | EmptyString => None
       | g => Some g
       end
  else None.

End Py.

(** ** Exceptions and results *)

(** The exceptions the backend raises.  The specification calls
    [ValueError] raised by [_parse_path] [InvalidPathError], [TypeError]
    raised by [list_dir_or_file] [ConfigurationError], the failed
    [assert] of [get_local_path] [NotAFileError], and the errors of the
    two probes [BucketNotFoundError] and [ObjectNotFoundError].
    [ClientError] is what the store's client raises; the backend's own
    attempts to raise one end in [TypeError] (see [check_exception]). *)
Inductive exn : Type :=
| ValueError (msg : string)
| TypeError (msg : string)
| AssertionError
| ClientError (msg : string)
| FileNotFoundError (path : string)
| KeyboardInterrupt
| GeneratorExit
| RuntimeError (msg : string).

Inductive result (A : Type) : Type :=
| Ok (a : A)
| Raise (e : exn).
Arguments Ok {A} a.
Arguments Raise {A} e.

(** ** Path handling: [_map_path], [_format_path], [_parse_path] *)

(** [path_mapping]: [None] or a dict, kept in insertion order. *)
Definition path_mapping_t := option (list (string * string)).

Definition _map_path (path_mapping : path_mapping_t) (filepath : string) : string :=
  match path_mapping with
  | None => filepath
  | Some items => fold_left (fun fp kv => Py.replace fp kv.1 kv.2) items filepath
  end.

Definition _format_path (filepath : string) : string :=
  Py.sub_backslashes false filepath.

Definition _parse_path (path_mapping : path_mapping_t) (filepath : string)
  : result (string * string) :=
  let filepath := _map_path path_mapping filepath in
  let filepath := _format_path filepath in
  match Py.match_s3 filepath with
  | None => Raise (ValueError ("filepath " +:+ filepath +:+ " is not a valid s3 path."))
  | Some path =>
      let path_split := Py.split1 Py.slash path in
      let bucket := default EmptyString (path_split !! 0) in
      let obj_name :=
        if decide (1 < length path_split)
        then default EmptyString (path_split !! 1)
        else EmptyString in
      Ok (bucket, obj_name)
  end.


(** ** The object store client and the local world *)

(** Continuation tokens are opaque cursors issued by the store. *)
Definition token := nat.

(** One page of [list_objects_v2]; [None] stands for an absent key of the
    response dict, and [Contents] keeps the ['Key'] of every entry. *)
Record response := {
  NextContinuationToken : option token;
  HTTPStatusCode : Z;
  Contents : option (list string)
}.

(** The requests the backend sends to the store; [ListObjectsV2] stands
    for one paginator of [list_objects_v2] being started and iterated. *)
Inductive request : Type :=
| HeadBucket (bucket : string)
| HeadObject (bucket key : string)
| DownloadFileobj (bucket key : string)
| ListObjectsV2 (bucket prefix : string) (start_token : option token).

(** The boto3 client, as far as the backend consumes it.  A probe either
    succeeds or raises; [paginate] gives the pages that iterating one
    paginator delivers for a bucket, a prefix and a starting token, and
    is taken not to raise. *)
Record client := {
  head_bucket : string -> result unit;
  head_object : string -> string -> result unit;
  download_fileobj : string -> string -> result string;
  paginate : string -> string -> option token -> list response
}.

Record AWSBackend := {
  path_mapping : path_mapping_t;
  _client : client
}.

(** What an operation can change: the log of store requests issued so far
    (oldest first), the local files with their contents, and the names
    [NamedTemporaryFile] has handed out. *)
Record world := {
  requests : list request;
  files : gmap string string;
  tempfiles : list string
}.

Definition M (A : Type) : Type := world -> result A * world.

Global Instance M_ret : MRet M := fun A a w => (Ok a, w).
Global Instance M_bind : MBind M := fun A B f m w =>
  match m w with
  | (Ok a, w') => f a w'
  | (Raise e, w') => (Raise e, w')
  end.

Definition raise {A} (e : exn) : M A := fun w => (Raise e, w).

Definition lift {A} (r : result A) : M A := fun w => (r, w).

Definition issue (q : request) : M unit := fun w =>
  (Ok tt, {| requests := requests w ++ [q]; files := files w; tempfiles := tempfiles w |}).

(** [try: body  except ClientError: handler] *)
Definition try_except_ClientError {A} (body handler : M A) : M A := fun w =>
  match body w with
  | (Raise (ClientError _), w') => handler w'
  | rw => rw
  end.

(** [self.check_exception(msg)].  [__init__] sets [check_exception] to
    [botocore.exceptions.ClientError], whose constructor is
    [__init__(self, error_response, operation_name)].  The backend calls
    it with the message alone, so the call raises [TypeError] (the text
    is the one Python 3.10 and later give) and builds no exception
    object. *)
Definition missing_operation_name : string :=
  "ClientError.__init__() missing 1 required positional argument: 'operation_name'".

Definition check_exception (msg : string) : result exn :=
  Raise (TypeError missing_operation_name).

(** [raise cls(args)]: the call is evaluated first; an exception it raises
    is the one that propagates. *)
Definition raise_new {A} (made : result exn) : M A :=
  match made with
  | Ok e => raise e
  | Raise e => raise e
  end.

(** [try: body  finally: cleanup]: an exception of [cleanup] replaces the
    outcome of [body]. *)
Definition try_finally {A} (body : M A) (cleanup : M unit) : M A := fun w =>
  match body w with
  | (r, w') =>
      match cleanup w' with
      | (Ok _, w'') => (r, w'')
      | (Raise e, w'') => (Raise e, w'')
      end
  end.

(** [os.remove(path)] *)
Definition os_remove (path : string) : M unit := fun w =>
  match files w !! path with
  | Some _ =>
      (Ok tt, {| requests := requests w; files := delete path (files w);
                 tempfiles := tempfiles w |})
  | None => (Raise (FileNotFoundError path), w)
  end.

(** What the listing generator yields.  A [DirEntry] comes from one of the
    two [yield ... + '/'] statements, a [FileEntry] from [yield path];
    [render] gives the string the caller receives. *)
Inductive entry : Type :=
| DirEntry (rel_dir : string)
| FileEntry (path : string).

Definition render (e : entry) : string :=
  match e with
  | DirEntry rel_dir => rel_dir +:+ "/"
  | FileEntry path => path
  end.

Definition is_dir_entry (e : entry) : bool :=
  match e with DirEntry _ => true | FileEntry _ => false end.

(** The [suffix] argument: a [str], a [tuple] of [str], or any other value. *)
Inductive suffix_arg : Type :=
| SuffixStr (s : string)
| SuffixTuple (l : list string)
| SuffixOther.

(** ** The backend's methods *)

Section Backend.

Variable self : AWSBackend.
(** The name [tempfile] picks for a new file, given the files present. *)
Variable mktemp : gmap string string -> string.

Definition _check_bucket (bucket : string) : M bool :=
  try_except_ClientError
    (issue (HeadBucket bucket);;
     lift (head_bucket (_client self) bucket);;
     mret true)
    (raise_new (check_exception ("Bucket " +:+ bucket +:+ " is not found."))).

Definition _check_object (bucket obj_name : string) : M bool :=
  try_except_ClientError
    (issue (HeadObject bucket obj_name);;
     lift (head_object (_client self) bucket obj_name);;
     mret true)
    (raise_new (check_exception
                  ("Object s3://" +:+ bucket +:+ "/" +:+ obj_name +:+ " is not found."))).

Definition get (filepath : string) : M string :=
  '(bucket, obj_name) ← lift (_parse_path (path_mapping self) filepath);
  _check_object bucket obj_name;;
  issue (DownloadFileobj bucket obj_name);;
  lift (download_fileobj (_client self) bucket obj_name).

(** [exists]; the name is a keyword here. *)
Definition exists_ (filepath : string) : M bool :=
  '(bucket, obj_name) ← lift (_parse_path (path_mapping self) filepath);
  _check_object bucket obj_name.

Definition isdir (filepath : string) : M bool :=
  '(bucket, obj_name) ← lift (_parse_path (path_mapping self) filepath);
  b ← _check_bucket bucket;
  if b && (Py.endswith obj_name "/" || String.eqb obj_name "")
  then mret true else mret false.

Definition isfile (filepath : string) : M bool :=
  '(bucket, obj_name) ← lift (_parse_path (path_mapping self) filepath);
  b ← _check_bucket bucket;
  if b && negb (Py.endswith obj_name "/") && negb (String.eqb obj_name "")
  then mret true else mret false.

Definition join_path (filepath : string) (filepaths : list string) : string :=
  let filepath := _format_path (_map_path (path_mapping self) filepath) in
  let filepath := if Py.endswith filepath "/" then Py.drop_last filepath else filepath in
  Py.join "/"
    (filepath :: map (fun path => _format_path (_map_path (path_mapping self) path))
                     filepaths).

(** *** [get_local_path] *)

(** [f = tempfile.NamedTemporaryFile(delete=False)], giving [f.name] *)
Definition NamedTemporaryFile : M string := fun w =>
  let name := mktemp (files w) in
  (Ok name, {| requests := requests w; files := <[name := ""]> (files w);
               tempfiles := tempfiles w ++ [name] |}).

(** [f.write(data); f.close()] *)
Definition write_close (name data : string) : M unit := fun w =>
  (Ok tt, {| requests := requests w; files := <[name := data]> (files w);
             tempfiles := tempfiles w |}).

(** The generator up to its [yield]: what [__enter__] of the context
    manager runs.  An exception before the [yield] passes through the
    [finally] clause. *)
Definition get_local_path_enter (filepath : string) : M string :=
  ok ← isfile filepath;
  if negb ok then raise AssertionError
  else
    name ← NamedTemporaryFile;
    ((fun w =>
        match (data ← get filepath; write_close name data) w with
        | (Ok _, w') => (Ok name, w')
        | (Raise e, w') => try_finally (raise e) (os_remove name) w'
        end) : M string).

(** The generator from its [yield] on: what [__exit__] runs, after the
    block ended with [outcome] (a value, or the exception thrown into
    the generator at the [yield]). *)
Definition get_local_path_exit {A} (name : string) (outcome : result A) : M A :=
  try_finally (lift outcome) (os_remove name).

(** [with self.get_local_path(filepath) as path: block(path)] *)
Definition with_get_local_path {A} (filepath : string) (block : string -> M A) : M A :=
  name ← get_local_path_enter filepath;
  ((fun w =>
      match block name w with
      | (outcome, w') => get_local_path_exit name outcome w'
      end) : M A).

End Backend.

(** ** [list_dir_or_file] *)

(** [path.endswith(suffix)] for the [suffix] values that pass the checks
    of [list_dir_or_file]; the generator is never built with another one. *)
Definition endswith_suffix (path : string) (suffix : suffix_arg) : bool :=
  match suffix with
  | SuffixStr s => Py.endswith path s
  | SuffixTuple l => existsb (Py.endswith path) l
  | SuffixOther => false
  end.

Section Listing.

(** [self], and the variables the nested generator function closes
    over or receives unchanged at every recursive call. *)
Variable self : AWSBackend.
Variables bucket root : string.
Variable dir_path : string.
Variables list_dir list_file : bool.
Variable suffix : option suffix_arg.
Variable recursive : bool.

Definition sparse_path_of (path : string) : list string :=
  filter (fun item => item ≠ EmptyString) (Py.split Py.slash (Py.replace path root "")).

(** One round of [for lvl in range(level - 1)]. *)
Definition infer_dir (sparse_path : list string)
    (acc : list entry * gset string) (lvl : nat) : list entry * gset string :=
  let rel_dir := Py.join "/" (take (lvl + 1) sparse_path) in
  (if decide (rel_dir ∈ acc.2) then acc.1 else acc.1 ++ [DirEntry rel_dir],
   {[rel_dir]} ∪ acc.2).

(** The body of [for content in response['Contents']], for the key of
    [content]: the entries yielded and the updated [duplicate_paths]. *)
Definition process_content (key : string) (duplicate_paths : gset string)
  : list entry * gset string :=
  let path := Py.slice_from (String.length root) key in
  let sparse_path := sparse_path_of path in
  let level := length sparse_path in
  if level =? 0 then ([], duplicate_paths)
  else if (1 <? level) && negb recursive then
    let first := default EmptyString (sparse_path !! 0) in
    if list_dir && negb (bool_decide (first ∈ duplicate_paths))
    then ([DirEntry first], {[first]} ∪ duplicate_paths)
    else ([], duplicate_paths)
  else
    let '(dirs, duplicate_paths) :=
      if list_dir
      then fold_left (infer_dir sparse_path) (seq 0 (level - 1)) ([], duplicate_paths)
      else ([], duplicate_paths) in
    let file :=
      if list_file &&
         match suffix with None => true | Some suf => endswith_suffix path suf end
      then [FileEntry path] else [] in
    (dirs ++ file, duplicate_paths).

Fixpoint process_contents (keys : list string) (duplicate_paths : gset string)
  : list entry * gset string :=
  match keys with
  | [] => ([], duplicate_paths)
  | key :: keys' =>
      let '(out, duplicate_paths) := process_content key duplicate_paths in
      let '(out', duplicate_paths) := process_contents keys' duplicate_paths in
      (out ++ out', duplicate_paths)
  end.

(** [for response in response_iterator]: the entries yielded, the
    [next_token] left after the loop and the updated [duplicate_paths]. *)
Fixpoint process_responses (response_iterator : list response)
    (next_token : option token) (duplicate_paths : gset string)
  : list entry * option token * gset string :=
  match response_iterator with
  | [] => ([], next_token, duplicate_paths)
  | response :: rest =>
      let next_token :=
        match NextContinuationToken response with
        | Some t => Some t
        | None => next_token
        end in
      let '(out, duplicate_paths) :=
        match Contents response with
        | Some contents =>
            if (HTTPStatusCode response =? 200)%Z
            then process_contents contents duplicate_paths
            else ([], duplicate_paths)
        | None => ([], duplicate_paths)
        end in
      let '(out', next_token, duplicate_paths) :=
        process_responses rest next_token duplicate_paths in
      (out ++ out', next_token, duplicate_paths)
  end.

(** The nested generator [_list_dir_or_file], run to exhaustion.  The
    recursion follows the continuation tokens for as long as the store
    issues them, so it takes [fuel]: the number of paginators it may
    start.  [None] means the fuel ran out. *)
Fixpoint _list_dir_or_file (fuel : nat) (start_token : option token)
    (duplicate_paths : gset string) (w : world)
  : option (list entry * gset string * world) :=
  match fuel with
  | 0 => None
  | S fuel' =>
      let w := (issue (ListObjectsV2 bucket dir_path start_token) w).2 in
      let response_iterator := paginate (_client self) bucket dir_path start_token in
      let '(out, next_token, duplicate_paths) :=
        process_responses response_iterator None duplicate_paths in
      match next_token with
      | None => Some (out, duplicate_paths, w)
      | Some t =>
          match _list_dir_or_file fuel' (Some t) duplicate_paths w with
          | Some (out', duplicate_paths, w) => Some (out ++ out', duplicate_paths, w)
          | None => None
          end
      end
  end.

End Listing.

(** The generator [list_dir_or_file] returns, consumed to its end: given
    fuel and a world, the entries yielded and the world afterwards.  The
    caller receives [render e] for every entry [e]. *)
Definition generator : Type := nat -> world -> option (list entry * world).

Definition list_dir_or_file (self : AWSBackend) (dir_path : string)
    (list_dir list_file : bool) (suffix : option suffix_arg) (recursive : bool)
  : M generator :=
  if list_dir && match suffix with Some _ => true | None => false end
  then raise (TypeError "`list_dir` should be False when `suffix` is not None")
  else if match suffix with Some SuffixOther => true | _ => false end
  then raise (TypeError "`suffix` must be a string or tuple of strings")
  else
    '(bucket, obj_name) ← lift (_parse_path (path_mapping self) dir_path);
    let dir_path := obj_name in
    let dir_path :=
      if negb (String.eqb dir_path "") && negb (Py.endswith dir_path "/")
      then dir_path +:+ "/" else dir_path in
    let root := dir_path in
    mret ((fun fuel w =>
             match _list_dir_or_file self bucket root dir_path list_dir list_file
                     suffix recursive fuel None ∅ w with
             | Some (out, _, w') => Some (out, w')
             | None => None
             end) : generator).

(** ** A store that delivers its keys in pages *)

Module S3.

(** Modelled from the spec: the object store behind the client, an
    external collaborator (section 4.5), which answers a listing with
    pages of keys chained by continuation tokens.  These are the
    responses for a listing that the store cuts into [pages], the first
    one numbered [i]: every page but the last carries the number of the
    next page as its continuation token.  An empty page has no
    ['Contents']. *)
Fixpoint responses_from (i : nat) (pages : list (list string)) : list response :=
  match pages with
  | [] => []
  | keys :: rest =>
      {| NextContinuationToken := match rest with [] => None | _ => Some (S i) end;
         HTTPStatusCode := 200;
         Contents := match keys with [] => None | _ => Some keys end |}
      :: responses_from (S i) rest
  end.

(** Modelled from the spec: one paginator of the external client,
    started at [start_token]: it delivers the page the token names and
    the [chunk] pages after it, as far as there are any ([chunk] is 0
    when every request fills the one page a paginator may deliver). *)
Definition paginate_pages (chunk : nat -> nat) (pages : list (list string))
    (start_token : option token) : list response :=
  let s := default 0 start_token in
  take (S (chunk s)) (drop s (responses_from 0 pages)).

(** Modelled from the spec: a client for a store with the one bucket
    [name], whose keys a listing delivers in [pages], those under the
    prefix only; [body] gives the content of an object.  Probes of
    anything else raise [ClientError]; listing another bucket delivers
    nothing. *)
Definition store (name : string) (pages : list (list string))
    (body : string -> string) (chunk : nat -> nat) : client :=
  {| head_bucket b :=
       if String.eqb b name then Ok tt
       else Raise (ClientError "An error occurred (404) when calling the HeadBucket operation: Not Found");
     head_object b k :=
       if String.eqb b name && bool_decide (k ∈ mjoin pages) then Ok tt
       else Raise (ClientError "An error occurred (404) when calling the HeadObject operation: Not Found");
     download_fileobj b k :=
       if String.eqb b name && bool_decide (k ∈ mjoin pages) then Ok (body k)
       else Raise (ClientError "An error occurred (404) when calling the GetObject operation: Not Found");
     paginate b prefix start_token :=
       if String.eqb b name
       then paginate_pages chunk
              (filter (fun k => Is_true (Py.startswith k prefix)) <$> pages) start_token
       else [] |}.

Definition backend (name : string) (pages : list (list string)) (chunk : nat -> nat)
  : AWSBackend :=
  {| path_mapping := None; _client := store name pages (fun _ => EmptyString) chunk |}.

End S3.

Definition world0 : world := {| requests := []; files := ∅; tempfiles := [] |}.

(** [list(self.list_dir_or_file(...))]: the strings a caller collects. *)
Definition listing (self : AWSBackend) (dir_path : string)
    (list_dir list_file : bool) (suffix : option suffix_arg) (recursive : bool)
    (fuel : nat) (w : world) : result (option (list string)) :=
  match list_dir_or_file self dir_path list_dir list_file suffix recursive w with
  | (Ok g, w') =>
      Ok (match g fuel w' with
          | Some (out, _) => Some (render <$> out)
          | None => None
          end)
  | (Raise e, _) => Raise e
  end.


(** ** The listing seen key by key

    Views of the generator used to reason about it: what one key
    contributes, which keys one traversal reads, and the segments as the
    specification words them. *)

(** Yield the directories of [dirs] that [duplicate_paths] does not hold
    yet, recording every one of them. *)
Fixpoint emit_dirs (dirs : list string) (duplicate_paths : gset string)
  : list entry * gset string :=
  match dirs with
  | [] => ([], duplicate_paths)
  | d :: dirs' =>
      let '(out, duplicate_paths') := emit_dirs dirs' ({[d]} ∪ duplicate_paths) in
      ((if decide (d ∈ duplicate_paths) then [] else [DirEntry d]) ++ out,
       duplicate_paths')
  end.

Section KeyView.

Variable root : string.
Variables list_dir list_file : bool.
Variable suffix : option suffix_arg.
Variable recursive : bool.

(** The directories a key makes the generator look up in
    [duplicate_paths], in order. *)
Definition implied_dirs (key : string) : list string :=
  let sparse_path := sparse_path_of root (Py.slice_from (String.length root) key) in
  let level := length sparse_path in
  if negb list_dir || (level =? 0) then []
  else if (1 <? level) && negb recursive
  then [default EmptyString (sparse_path !! 0)]
  else (fun lvl => Py.join "/" (take (lvl + 1) sparse_path)) <$> seq 0 (level - 1).

(** The file entry a key yields, if any. *)
Definition own_file (key : string) : list entry :=
  let path := Py.slice_from (String.length root) key in
  let level := length (sparse_path_of root path) in
  if (level =? 0) || ((1 <? level) && negb recursive) then []
  else if list_file &&
          match suffix with None => true | Some suf => endswith_suffix path suf end
  then [FileEntry path] else [].

End KeyView.

(** The keys one iteration of a paginator hands to the loop body. *)
Definition response_keys (response_iterator : list response) : list string :=
  response_iterator ≫= fun response =>
    match Contents response with
    | Some contents => if (HTTPStatusCode response =? 200)%Z then contents else []
    | None => []
    end.

(** The value of [next_token] after the loop over the responses. *)
Definition last_token (response_iterator : list response) (next_token : option token)
  : option token :=
  fold_left (fun next_token response =>
               match NextContinuationToken response with
               | Some t => Some t
               | None => next_token
               end) response_iterator next_token.

(** The keys a traversal reads, in order, a key once for every time it is
    delivered. *)
Fixpoint visited_keys (pages_for : option token -> list response)
    (fuel : nat) (start_token : option token) : option (list string) :=
  match fuel with
  | 0 => None
  | S fuel' =>
      let response_iterator := pages_for start_token in
      match last_token response_iterator None with
      | None => Some (response_keys response_iterator)
      | Some t =>
          match visited_keys pages_for fuel' (Some t) with
          | Some keys => Some (response_keys response_iterator ++ keys)
          | None => None
          end
      end
  end.

(** The exception that [raise self.check_exception(msg)] propagates. *)
Definition raised_by_check_exception (msg : string) : exn :=
  match check_exception msg with
  | Ok e => e
  | Raise e => e
  end.

(** What [_check_bucket] raises when the bucket probe raises [e]: the
    [except] clause catches [ClientError] only. *)
Definition bucket_probe_error (bucket : string) (e : exn) : exn :=
  match e with
  | ClientError _ =>
      raised_by_check_exception ("Bucket " +:+ bucket +:+ " is not found.")
  | _ => e
  end.

(** The traversal root that [list_dir_or_file] derives from the parsed
    key, and the generator it builds for a bucket and a root. *)
Definition root_of (obj_name : string) : string :=
  if negb (String.eqb obj_name "") && negb (Py.endswith obj_name "/")
  then obj_name +:+ "/" else obj_name.

Definition generator_for (self : AWSBackend) (bucket root : string)
    (list_dir list_file : bool) (suffix : option suffix_arg) (recursive : bool)
  : generator :=
  fun fuel w =>
    match _list_dir_or_file self bucket root root list_dir list_file
            suffix recursive fuel None ∅ w with
    | Some (out, _, w') => Some (out, w')
    | None => None
    end.

(** The keys a store with the bucket [name] and the given pages hands out
    when [bucket] is listed under the prefix [root]. *)
Definition listed_key (name : string) (pages : list (list string))
    (bucket root : string) (k : string) : Prop :=
  bucket = name /\ Is_true (Py.startswith k root) /\ k ∈ mjoin pages.

(** The segments of a key as the specification words them: the root
    prefix removed once from the front, the rest split on slashes, empty
    segments dropped. *)
Definition spec_segments (root key : string) : list string :=
  filter (fun item => item ≠ EmptyString)
         (Py.split Py.slash (Py.slice_from (String.length root) key)).


(** ** Further views: characters, probes, the mutable store *)

(** [c in s] for a character [c]. *)
Fixpoint has_char (c : ascii) (s : string) : bool :=
  match s with
  | EmptyString => false
  | String a s' => Ascii.eqb a c || has_char c s'
  end.

(** What [_check_object] raises when the object probe raises [e]. *)
Definition object_probe_error (bucket obj_name : string) (e : exn) : exn :=
  match e with
  | ClientError _ =>
      raised_by_check_exception
        ("Object s3://" +:+ bucket +:+ "/" +:+ obj_name +:+ " is not found.")
  | _ => e
  end.

(** What [get] gives for a parsed path, and the requests it issues. *)
Definition get_result (self : AWSBackend) (bucket key : string) : result string :=
  match head_object (_client self) bucket key with
  | Ok _ => download_fileobj (_client self) bucket key
  | Raise e => Raise (object_probe_error bucket key e)
  end.

Definition get_requests (self : AWSBackend) (bucket key : string) : list request :=
  match head_object (_client self) bucket key with
  | Ok _ => [HeadObject bucket key; DownloadFileobj bucket key]
  | Raise _ => [HeadObject bucket key]
  end.

(** ** Writing to the store: [put], [put_text], [remove], and [get_text] *)

(** The calls that change the store. *)
Inductive write_call : Type :=
| UploadFileobj (bucket key body : string)
| DeleteObject (bucket key : string).

(** Modelled from the spec: the state of the object store behind the
    client, an external collaborator (section 4.5): the buckets that
    exist, the objects they hold, and the writing calls received so far
    (oldest first). *)
Record remote := {
  buckets : gset string;
  objects : gmap (string * string) string;
  calls : list write_call
}.

(** Modelled from the spec: the keys the store holds in the bucket [b]
    under [prefix]. *)
Definition remote_keys (r : remote) (b prefix : string) : list string :=
  omap (fun kv : string * string * string =>
          if decide (kv.1.1 = b /\ Is_true (Py.startswith kv.1.2 prefix))
          then Some kv.1.2 else None)
       (map_to_list (objects r)).

(** Modelled from the spec: the client's view of a store in the state
    [r].  A probe or a download of something the store does not hold
    raises [ClientError]; a listing delivers the keys of the bucket under
    the prefix in one page. *)
Definition client_of (r : remote) : client :=
  {| head_bucket b :=
       if decide (b ∈ buckets r) then Ok tt
       else Raise (ClientError "An error occurred (404) when calling the HeadBucket operation: Not Found");
     head_object b k :=
       match objects r !! (b, k) with
       | Some _ => Ok tt
       | None => Raise (ClientError "An error occurred (404) when calling the HeadObject operation: Not Found")
       end;
     download_fileobj b k :=
       match objects r !! (b, k) with
       | Some body => Ok body
       | None => Raise (ClientError "An error occurred (404) when calling the GetObject operation: Not Found")
       end;
     paginate b prefix start_token :=
       [{| NextContinuationToken := None; HTTPStatusCode := 200;
           Contents := match remote_keys r b prefix with
                       | [] => None
                       | keys => Some keys
                       end |}] |}.

Definition backend_of (pm : path_mapping_t) (r : remote) : AWSBackend :=
  {| path_mapping := pm; _client := client_of r |}.

(** Modelled from the spec: [upload_fileobj] stores the body under the
    key, replacing what was there, and raises for a bucket the store does
    not have. *)
Definition upload_fileobj (r : remote) (bucket key body : string) : result unit * remote :=
  if decide (bucket ∈ buckets r)
  then (Ok tt, {| buckets := buckets r;
                  objects := <[(bucket, key) := body]> (objects r);
                  calls := calls r ++ [UploadFileobj bucket key body] |})
  else (Raise (ClientError "An error occurred (NoSuchBucket) when calling the PutObject operation"),
        {| buckets := buckets r; objects := objects r;
           calls := calls r ++ [UploadFileobj bucket key body] |}).

(** Modelled from the spec: [delete_object] removes the key if it is
    there, succeeds if it is not, and raises for a bucket the store does
    not have. *)
Definition delete_object (r : remote) (bucket key : string) : result unit * remote :=
  if decide (bucket ∈ buckets r)
  then (Ok tt, {| buckets := buckets r;
                  objects := delete (bucket, key) (objects r);
                  calls := calls r ++ [DeleteObject bucket key] |})
  else (Raise (ClientError "An error occurred (NoSuchBucket) when calling the DeleteObject operation"),
        {| buckets := buckets r; objects := objects r;
           calls := calls r ++ [DeleteObject bucket key] |}).

(** [put]: the world and the state of the store are passed along. *)
Definition put (pm : path_mapping_t) (obj filepath : string) (r : remote) (w : world)
  : result unit * world * remote :=
  match _parse_path pm filepath with
  | Raise e => (Raise e, w, r)
  | Ok (bucket, obj_name) =>
      match _check_bucket (backend_of pm r) bucket w with
      | (Raise e, w') => (Raise e, w', r)
      | (Ok _, w') =>
          match upload_fileobj r bucket obj_name obj with
          | (res, r') => (res, w', r')
          end
      end
  end.

(** [remove] *)
Definition remove (pm : path_mapping_t) (filepath : string) (r : remote) (w : world)
  : result unit * world * remote :=
  match _parse_path pm filepath with
  | Raise e => (Raise e, w, r)
  | Ok (bucket, obj_name) =>
      match delete_object r bucket obj_name with
      | (res, r') => (res, w, r')
      end
  end.

(** The [encoding] argument of [get_text] and [put_text]: [bytes(obj,
    encoding)] and [str(data, encoding)], either of which may raise. *)
Record codec := {
  to_bytes : string -> result string;
  to_str : string -> result string
}.

(** [put_text] *)
Definition put_text (pm : path_mapping_t) (encoding : codec) (obj filepath : string)
    (r : remote) (w : world) : result unit * world * remote :=
  match to_bytes encoding obj with
  | Raise e => (Raise e, w, r)
  | Ok data => put pm data filepath r w
  end.

(** [get_text] *)
Definition get_text (self : AWSBackend) (encoding : codec) (filepath : string) : M string :=
  data ← get self filepath;
  lift (to_str encoding data).

(** * Properties *)

(** ** Strings *)

Lemma startswith_split s p :
  Py.startswith s p = true -> s = p +:+ Py.slice_from (String.length p) s.
Proof.
  revert s. induction p as [|a p IH]; intros s H.
  - reflexivity.
  - destruct s as [|b s]; simpl in H; [discriminate|].
    destruct (Ascii.eqb_spec a b) as [->|]; [|discriminate].
    change (String b s = String b (p +:+ Py.slice_from (String.length p) s)).
    f_equal. by apply IH.
Qed.

Lemma dot_run_head r c g :
  Py.dot_run r = String c g -> exists r', r = String c r'.
Proof.
  destruct r as [|b r]; simpl; [done|].
  destruct (Ascii.eqb b Py.newline); [done|].
  intros [= -> _]. by eexists.
Qed.

Lemma startswith_cons c s a p :
  Py.startswith (String c s) (String a p)
  = if Ascii.eqb a c then Py.startswith s p else false.
Proof. reflexivity. Qed.

Lemma startswith_nil s : Py.startswith s EmptyString = true.
Proof. by destruct s. Qed.

Lemma split1_cons c g :
  Py.split1 Py.slash (String c g)
  = if Ascii.eqb c Py.slash then [EmptyString; g]
    else match Py.split1 Py.slash g with
         | h :: t => String c h :: t
         | [] => [String c EmptyString]
         end.
Proof. reflexivity. Qed.

Lemma split1_head_empty g :
  g <> EmptyString ->
  (default EmptyString (Py.split1 Py.slash g !! 0) = EmptyString
   <-> Py.startswith g "/" = true).
Proof.
  destruct g as [|c g]; [done|]. intros _.
  rewrite split1_cons, startswith_cons, startswith_nil.
  change Py.slash with "/"%char. rewrite (Ascii.eqb_sym "/" c).
  destruct (Ascii.eqb c "/"); [done|].
  destruct (Py.split1 "/" g); simpl; split; discriminate.
Qed.

(** ** Path parsing *)

Lemma _parse_path_total pm s :
  (exists msg, _parse_path pm s = Raise (ValueError msg)) \/
  (exists bucket key, _parse_path pm s = Ok (bucket, key)).
Proof.
  unfold _parse_path. destruct (Py.match_s3 _); eauto.
Qed.

Lemma _parse_path_bucket pm s bucket key :
  _parse_path pm s = Ok (bucket, key) ->
  (bucket = EmptyString
   <-> Py.startswith (_format_path (_map_path pm s)) "s3:///" = true).
Proof.
  unfold _parse_path. cbv zeta. set (f := _format_path (_map_path pm s)).
  unfold Py.match_s3. destruct (Py.startswith f "s3://") eqn:P; [|done].
  apply startswith_split in P. change (String.length "s3://") with 5 in P.
  destruct (Py.dot_run (Py.slice_from 5 f)) as [|c g] eqn:D; [done|].
  intros [= <- _].
  destruct (dot_run_head _ _ _ D) as [r' Hr].
  rewrite <- split1_cons, split1_head_empty by done.
  rewrite P, Hr.
  change (Py.startswith ("s3://" +:+ String c r') "s3:///")
    with (Py.startswith (String c r') "/").
  by rewrite !startswith_cons, !startswith_nil.
Qed.

(** C5, the part that fails: a path with a slash right after the scheme
    parses to an empty bucket. *)
Lemma parse_path_bucket_may_be_empty :
  _parse_path None "s3:///a" = Ok ("", "a") /\
  ~ (forall s : string,
        (exists msg, _parse_path None s = Raise (ValueError msg)) \/
        (exists bucket key,
            _parse_path None s = Ok (bucket, key) /\ bucket <> EmptyString)).
Proof.
  split; [reflexivity|].
  intros H. destruct (H "s3:///a") as [[msg Hm]|(b & k & Hp & Hb)].
  - discriminate Hm.
  - vm_compute in Hp. by injection Hp as <- _.
Qed.

(** C5, amended: the three documented parses hold, and every string
    either fails to parse with [ValueError] or parses to a bucket and a
    key, the bucket being empty exactly when the mapped and normalised
    path starts with "s3:///". *)
Theorem parse_path_cases :
  _parse_path None "s3://bucket/a/b" = Ok ("bucket", "a/b") /\
  _parse_path None "s3://bucket" = Ok ("bucket", "") /\
  _parse_path None "not-s3-path"
    = Raise (ValueError "filepath not-s3-path is not a valid s3 path.") /\
  forall (pm : path_mapping_t) (s : string),
    (exists msg, _parse_path pm s = Raise (ValueError msg)) \/
    (exists bucket key,
        _parse_path pm s = Ok (bucket, key) /\
        (bucket = EmptyString
         <-> Py.startswith (_format_path (_map_path pm s)) "s3:///" = true)).
Proof.
  repeat split; try reflexivity.
  intros pm s. destruct (_parse_path_total pm s) as [?|(b & k & Hp)]; [by left|].
  right. exists b, k. split; [done|]. by apply _parse_path_bucket in Hp.
Qed.

(** ** Existence and type checks *)

Lemma _check_bucket_found self bucket w :
  head_bucket (_client self) bucket = Ok tt ->
  _check_bucket self bucket w
  = (Ok true, {| requests := requests w ++ [HeadBucket bucket];
                 files := files w; tempfiles := tempfiles w |}).
Proof.
  intros H. unfold _check_bucket, try_except_ClientError, mbind, M_bind, issue, lift.
  by rewrite H.
Qed.

Lemma _check_bucket_raises self bucket e w :
  head_bucket (_client self) bucket = Raise e ->
  _check_bucket self bucket w
  = (Raise (bucket_probe_error bucket e),
     {| requests := requests w ++ [HeadBucket bucket];
        files := files w; tempfiles := tempfiles w |}).
Proof.
  intros H. unfold _check_bucket, try_except_ClientError, mbind, M_bind, issue, lift.
  rewrite H. by destruct e.
Qed.

Lemma exists_not_found self filepath bucket key msg w :
  _parse_path (path_mapping self) filepath = Ok (bucket, key) ->
  head_object (_client self) bucket key = Raise (ClientError msg) ->
  exists_ self filepath w
  = (Raise (TypeError missing_operation_name),
     {| requests := requests w ++ [HeadObject bucket key];
        files := files w; tempfiles := tempfiles w |}).
Proof.
  intros Hp Hh.
  unfold exists_, _check_object, try_except_ClientError, mbind, M_bind, issue, lift.
  by rewrite Hp, Hh.
Qed.

(** C7, on a store without the object: [exists] does not return [False];
    the [except] clause of [_check_object] runs, its call of
    [check_exception] with one argument raises [TypeError], and that
    error reaches the caller. *)
Theorem exists_raises_for_missing_object :
  exists_ (S3.backend "bucket" [["a.txt"]] (fun _ => 0)) "s3://bucket/missing.txt" world0
  = (Raise (TypeError missing_operation_name),
     {| requests := [HeadObject "bucket" "missing.txt"]; files := ∅; tempfiles := [] |}).
Proof. reflexivity. Qed.

(** C10: when the bucket probe succeeds, [isfile] answers from the shape
    of the key alone (non-empty and not ending in a slash), and the only
    store request it issues is the bucket probe. *)
Theorem isfile_decided_by_key_shape self filepath bucket key w :
  _parse_path (path_mapping self) filepath = Ok (bucket, key) ->
  head_bucket (_client self) bucket = Ok tt ->
  isfile self filepath w
  = (Ok (negb (Py.endswith key "/") && negb (String.eqb key "")),
     {| requests := requests w ++ [HeadBucket bucket];
        files := files w; tempfiles := tempfiles w |}).
Proof.
  intros Hp Hb. unfold isfile, mbind, M_bind, lift at 1. rewrite Hp.
  rewrite (_check_bucket_found _ _ _ Hb). simpl.
  by destruct (Py.endswith key "/"), (String.eqb key "").
Qed.

Lemma isfile_decided_by_key_shape_witness :
  isfile (S3.backend "bucket" [["a.txt"]] (fun _ => 0)) "s3://bucket/ghost.txt" world0
  = (Ok true, {| requests := [HeadBucket "bucket"]; files := ∅; tempfiles := [] |}).
Proof.
  apply (isfile_decided_by_key_shape
           (S3.backend "bucket" [["a.txt"]] (fun _ => 0))
           "s3://bucket/ghost.txt" "bucket" "ghost.txt" world0); reflexivity.
Defined.

Example isdir_of_prefix :
  isdir (S3.backend "bucket" [["d/x.txt"]] (fun _ => 0)) "s3://bucket/d/" world0
  = (Ok true, {| requests := [HeadBucket "bucket"]; files := ∅; tempfiles := [] |}).
Proof. reflexivity. Qed.

Example join_path_strips_one_slash :
  join_path (S3.backend "b" [] (fun _ => 0)) "s3://b/a/" ["c"; "d"] = "s3://b/a/c/d".
Proof. reflexivity. Qed.

(** ** Listing options *)

(** C6: [list_dir=True] with a [suffix] that is not [None] raises
    [TypeError] at once, whatever the other arguments and the store; the
    world, and with it the log of store requests, is left as it was. *)
Theorem list_dir_with_suffix_is_rejected
    self dir_path list_file (suffix : suffix_arg) recursive w :
  list_dir_or_file self dir_path true list_file (Some suffix) recursive w
  = (Raise (TypeError "`list_dir` should be False when `suffix` is not None"), w).
Proof. reflexivity. Qed.

(** ** Local staging *)

Lemma isfile_of_directory self filepath bucket key w :
  _parse_path (path_mapping self) filepath = Ok (bucket, key) ->
  Py.endswith key "/" = true \/ key = EmptyString ->
  isfile self filepath w
  = (match head_bucket (_client self) bucket with
     | Ok _ => Ok false
     | Raise e => Raise (bucket_probe_error bucket e)
     end,
     {| requests := requests w ++ [HeadBucket bucket];
        files := files w; tempfiles := tempfiles w |}).
Proof.
  intros Hp Hk. unfold isfile, mbind, M_bind, lift at 1. rewrite Hp.
  destruct (head_bucket (_client self) bucket) as [[]|e] eqn:Hb.
  - rewrite (_check_bucket_found _ _ _ Hb). cbn [andb].
    by destruct Hk as [->| ->].
  - by rewrite (_check_bucket_raises _ _ _ _ Hb).
Qed.

(** C8, the part that fails: on a directory path in a bucket the probe
    does not find, staging fails with the [TypeError] that the [except]
    clause of [_check_bucket] ends in, not with the failed assertion. *)
Lemma staging_directory_in_missing_bucket :
  get_local_path_enter (S3.backend "bucket" [["d/x.txt"]] (fun _ => 0))
    (fun _ => "/tmp/tmp0") "s3://other/d/" world0
  = (Raise (TypeError missing_operation_name),
     {| requests := [HeadBucket "other"]; files := ∅; tempfiles := [] |}) /\
  forall w,
    get_local_path_enter (S3.backend "bucket" [["d/x.txt"]] (fun _ => 0))
      (fun _ => "/tmp/tmp0") "s3://other/d/" world0
    <> (Raise AssertionError, w).
Proof. split; [reflexivity|]. intros w. vm_compute. discriminate. Qed.

(** C8, amended: staging a path whose parsed key ends in a slash or is
    empty always fails, before the block runs, and creates no temporary
    file; the failure is the failed assertion when the bucket probe
    succeeds, [TypeError] when the probe raises [ClientError] (the
    [except] clause of [_check_bucket] calls [check_exception] with one
    argument), and the probe's own exception when it raises any other. *)
Theorem staging_directory_fails self mktemp filepath bucket key w :
  _parse_path (path_mapping self) filepath = Ok (bucket, key) ->
  Py.endswith key "/" = true \/ key = EmptyString ->
  exists e w',
    get_local_path_enter self mktemp filepath w = (Raise e, w') /\
    (forall A (block : string -> M A),
        with_get_local_path self mktemp filepath block w = (Raise e, w')) /\
    files w' = files w /\ tempfiles w' = tempfiles w /\
    (head_bucket (_client self) bucket = Ok tt -> e = AssertionError) /\
    (forall msg, head_bucket (_client self) bucket = Raise (ClientError msg) ->
                 e = TypeError missing_operation_name) /\
    (forall e0, head_bucket (_client self) bucket = Raise e0 ->
                (forall msg, e0 <> ClientError msg) -> e = e0).
Proof.
  intros Hp Hk.
  pose proof (isfile_of_directory self filepath bucket key w Hp Hk) as Hf.
  set (w' := {| requests := requests w ++ [HeadBucket bucket];
                files := files w; tempfiles := tempfiles w |}) in Hf.
  assert (forall e, isfile self filepath w = (Raise e, w') ->
                    get_local_path_enter self mktemp filepath w = (Raise e, w')) as Hr.
  { intros e H. unfold get_local_path_enter, mbind, M_bind. by rewrite H. }
  assert (forall e, get_local_path_enter self mktemp filepath w = (Raise e, w') ->
                    forall A (block : string -> M A),
                      with_get_local_path self mktemp filepath block w = (Raise e, w')) as Hw.
  { intros e H A block. unfold with_get_local_path, mbind, M_bind. by rewrite H. }
  destruct (head_bucket (_client self) bucket) as [[]|e0] eqn:Hb.
  - assert (get_local_path_enter self mktemp filepath w = (Raise AssertionError, w')) as He.
    { unfold get_local_path_enter, mbind, M_bind. by rewrite Hf. }
    exists AssertionError, w'. by repeat split; auto.
  - exists (bucket_probe_error bucket e0), w'.
    repeat split; auto; [done| |].
    + by intros msg [= ->].
    + intros ? [= <-] Hn. destruct e0; try done. by destruct (Hn msg).
Qed.

Lemma staging_directory_fails_witness :
  exists e w',
    get_local_path_enter (S3.backend "bucket" [["d/x.txt"]] (fun _ => 0))
      (fun _ => "/tmp/tmp0") "s3://bucket/d/" world0 = (Raise e, w') /\
    files w' = ∅ /\ tempfiles w' = [] /\ e = AssertionError.
Proof.
  destruct (staging_directory_fails
              (S3.backend "bucket" [["d/x.txt"]] (fun _ => 0))
              (fun _ => "/tmp/tmp0") "s3://bucket/d/" "bucket" "d/" world0)
    as (e & w' & He & _ & Hf & Ht & Ha & _ & _).
  - reflexivity.
  - left. reflexivity.
  - exists e, w'. repeat split; [exact He|exact Hf|exact Ht|]. apply Ha. reflexivity.
Defined.

Lemma os_remove_gone name w : files (os_remove name w).2 !! name = None.
Proof.
  unfold os_remove. destruct (files w !! name) eqn:E; simpl; [|done].
  apply lookup_delete_eq.
Qed.

Lemma get_local_path_exit_gone {A} name (outcome : result A) w :
  files (get_local_path_exit name outcome w).2 !! name = None.
Proof.
  unfold get_local_path_exit, try_finally, lift.
  pose proof (os_remove_gone name w) as H.
  by destruct (os_remove name w) as [[[]|e] w'].
Qed.

(** C9: once the staging scope is entered (the temporary file is written
    and its name handed to the block), the file is gone when the [with]
    statement is left, whatever the block did to the world and however it
    ended: with a value, with an exception, or cancelled. *)
Theorem staged_file_removed_on_exit
    {A} self mktemp filepath (block : string -> M A) w name w1 :
  get_local_path_enter self mktemp filepath w = (Ok name, w1) ->
  forall outcome w2, block name w1 = (outcome, w2) ->
    files (get_local_path_exit name outcome w2).2 !! name = None /\
    with_get_local_path self mktemp filepath block w
    = get_local_path_exit name outcome w2.
Proof.
  intros He outcome w2 Hb. split; [apply get_local_path_exit_gone|].
  unfold with_get_local_path, mbind, M_bind. by rewrite He, Hb.
Qed.

Lemma staged_file_removed_on_exit_witness :
  let self := {| path_mapping := None;
                 _client := S3.store "bucket" [["a.txt"]] (fun _ => "data") (fun _ => 0) |} in
  let w1 := {| requests := [HeadBucket "bucket"; HeadObject "bucket" "a.txt";
                            DownloadFileobj "bucket" "a.txt"];
               files := {["/tmp/tmp0" := "data"]};
               tempfiles := ["/tmp/tmp0"] |} in
  files (get_local_path_exit "/tmp/tmp0" (Raise KeyboardInterrupt : result unit) w1).2
    !! "/tmp/tmp0" = None /\
  with_get_local_path (A:=unit) self (fun _ => "/tmp/tmp0") "s3://bucket/a.txt"
    (fun _ => raise KeyboardInterrupt) world0
  = get_local_path_exit "/tmp/tmp0" (Raise KeyboardInterrupt) w1.
Proof.
  intros self w1.
  apply (staged_file_removed_on_exit (A:=unit) self (fun _ => "/tmp/tmp0")
           "s3://bucket/a.txt" (fun _ => raise KeyboardInterrupt) world0 "/tmp/tmp0" w1).
  - vm_compute. reflexivity.
  - reflexivity.
Defined.

(** ** The listing generator *)

Lemma emit_dirs_spec dirs : forall dup out dup',
  emit_dirs dirs dup = (out, dup') ->
  dup' = list_to_set dirs ∪ dup /\
  (forall e, e ∈ out <-> exists d, e = DirEntry d /\ d ∈ dirs /\ d ∉ dup) /\
  NoDup out.
Proof.
  induction dirs as [|d dirs IH]; intros dup out dup'; simpl.
  - intros [= <- <-]. split; [set_solver|]. split; [|constructor].
    intros e. split; [by intros ?%elem_of_nil|]. intros (x & _ & Hx & _). set_solver.
  - destruct (emit_dirs dirs ({[d]} ∪ dup)) as [o d'] eqn:E.
    destruct (IH _ _ _ E) as (Hd & Hin & Hnd). intros [= <- <-].
    split; [set_solver|]. split.
    + intros e. rewrite elem_of_app, Hin. split.
      * intros [He|(x & -> & Hx & Hn)].
        -- destruct (decide (d ∈ dup)); [set_solver|].
           apply list_elem_of_singleton in He as ->. exists d. set_solver.
        -- exists x. set_solver.
      * intros (x & -> & Hx & Hn). destruct (decide (x = d)) as [->|Hne].
        -- left. rewrite decide_False by done. set_solver.
        -- right. exists x. set_solver.
    + apply NoDup_app. split; [|split; [|done]].
      * destruct (decide (d ∈ dup)); [constructor|]. apply NoDup_singleton.
      * intros e He. rewrite Hin. intros (x & -> & Hx & Hn).
        destruct (decide (d ∈ dup)); [set_solver|].
        apply list_elem_of_singleton in He as [= ->]. set_solver.
Qed.

Lemma emit_dirs_only_dirs dirs dup e :
  e ∈ (emit_dirs dirs dup).1 -> is_dir_entry e = true.
Proof.
  destruct (emit_dirs dirs dup) as [out dup'] eqn:E.
  destruct (emit_dirs_spec _ _ _ _ E) as (_ & Hin & _).
  simpl. rewrite Hin. by intros (d & -> & _).
Qed.

Section ListingProps.

Variable self : AWSBackend.
Variables bucket root dir_path : string.
Variables list_dir list_file : bool.
Variable suffix : option suffix_arg.
Variable recursive : bool.

Local Abbreviation on_key :=
  (process_content root list_dir list_file suffix recursive).
Local Abbreviation on_keys :=
  (process_contents root list_dir list_file suffix recursive).
Local Abbreviation on_responses :=
  (process_responses root list_dir list_file suffix recursive).
Local Abbreviation dirs_of := (implied_dirs root list_dir recursive).
Local Abbreviation file_of := (own_file root list_file suffix recursive).

Lemma fold_infer_dir sparse_path lvls : forall out dup,
  fold_left (infer_dir sparse_path) lvls (out, dup)
  = (out ++ (emit_dirs ((fun lvl => Py.join "/" (take (lvl + 1) sparse_path)) <$> lvls) dup).1,
     (emit_dirs ((fun lvl => Py.join "/" (take (lvl + 1) sparse_path)) <$> lvls) dup).2).
Proof.
  induction lvls as [|lvl lvls IH]; intros out dup; simpl.
  - by rewrite app_nil_r.
  - unfold infer_dir at 2. simpl. rewrite IH.
    destruct (emit_dirs _ ({[_]} ∪ dup)) as [o d']. simpl.
    destruct (decide _); simpl; [done|]. by rewrite <- app_assoc.
Qed.

Lemma process_content_eq key dup :
  on_key key dup
  = ((emit_dirs (dirs_of key) dup).1 ++ file_of key,
     (emit_dirs (dirs_of key) dup).2).
Proof.
  unfold process_content, implied_dirs, own_file.
  cbv zeta.
  set (path := Py.slice_from (String.length root) key).
  set (sp := sparse_path_of root path).
  destruct (length sp =? 0) eqn:E0; simpl.
  { by rewrite orb_true_r. }
  rewrite orb_false_r.
  destruct ((1 <? length sp) && negb recursive) eqn:E1; simpl.
  - destruct list_dir; simpl; [|done].
    rewrite app_nil_r. case_bool_decide; rewrite ?decide_True, ?decide_False by done; simpl.
    + f_equal. set_solver.
    + done.
  - destruct list_dir; simpl; [|done].
    rewrite fold_infer_dir. simpl.
    by destruct (emit_dirs _ dup).
Qed.

Lemma file_of_not_dir key e : e ∈ file_of key -> is_dir_entry e = false.
Proof.
  unfold own_file. cbv zeta.
  destruct (_ || _); [by intros ?%elem_of_nil|].
  destruct (_ && _); [|by intros ?%elem_of_nil].
  by intros ->%list_elem_of_singleton.
Qed.

Lemma file_of_NoDup key : NoDup (file_of key).
Proof.
  unfold own_file. cbv zeta.
  destruct (_ || _); [constructor|].
  destruct (_ && _); [apply NoDup_singleton|constructor].
Qed.

Lemma on_keys_app keys1 : forall keys2 dup,
  on_keys (keys1 ++ keys2) dup
  = ((on_keys keys1 dup).1 ++ (on_keys keys2 (on_keys keys1 dup).2).1,
     (on_keys keys2 (on_keys keys1 dup).2).2).
Proof.
  induction keys1 as [|key keys1 IH]; intros keys2 dup; simpl.
  - by destruct (on_keys keys2 dup).
  - destruct (on_key key dup) as [o1 d1]. rewrite IH.
    destruct (on_keys keys1 d1) as [o2 d2]; simpl.
    destruct (on_keys keys2 d2) as [o3 d3]; simpl.
    by rewrite app_assoc.
Qed.

(** What a run over [keys] yields, starting from [dup]: every implied
    directory that [dup] does not hold, once, and the file of every key. *)
Lemma on_keys_spec keys : forall dup out dup',
  on_keys keys dup = (out, dup') ->
  dup' = list_to_set (keys ≫= dirs_of) ∪ dup /\
  (forall e, e ∈ out <->
             (exists d, e = DirEntry d /\ d ∈ keys ≫= dirs_of /\ d ∉ dup) \/
             (exists key, key ∈ keys /\ e ∈ file_of key)) /\
  NoDup (filter (fun e => Is_true (is_dir_entry e)) out).
Proof.
  induction keys as [|key keys IH]; intros dup out dup'; simpl.
  - intros [= <- <-]. split; [set_solver|]. split; [|constructor].
    intros e. split; [by intros ?%elem_of_nil|].
    intros [(d & _ & Hd & _)|(k & Hk & _)]; set_solver.
  - rewrite process_content_eq.
    destruct (emit_dirs (dirs_of key) dup) as [o1 d1] eqn:E1.
    destruct (emit_dirs_spec _ _ _ _ E1) as (Hd1 & Hin1 & Hnd1).
    pose proof (emit_dirs_only_dirs (dirs_of key) dup) as Hdir. rewrite E1 in Hdir.
    simpl in *.
    destruct (on_keys keys d1) as [o2 d2] eqn:E2.
    destruct (IH _ _ _ E2) as (Hd2 & Hin2 & Hnd2).
    intros [= <- <-]. split; [set_solver|]. split.
    + intros e. rewrite !elem_of_app, Hin1, Hin2. subst d1. split.
      * intros [[(d & -> & Hd & Hn)|Hf]|[(d & -> & Hd & Hn)|(k & Hk & Hf)]].
        -- left. exists d. set_solver.
        -- right. exists key. set_solver.
        -- left. exists d. set_solver.
        -- right. exists k. set_solver.
      * intros [(d & -> & Hd & Hn)|(k & Hk & Hf)].
        -- destruct (decide (d ∈ dirs_of key)).
           ++ left. left. by exists d.
           ++ right. left. exists d. set_solver.
        -- apply elem_of_cons in Hk as [->|Hk]; [by left; right|].
           right. right. by exists k.
    + rewrite !filter_app. apply NoDup_app. split; [|split; [|done]].
      * apply NoDup_app. split; [by apply NoDup_filter|]. split.
        -- intros e _ [He1 He2]%list_elem_of_filter.
           apply file_of_not_dir in He2. by rewrite He2 in He1.
        -- apply NoDup_filter, file_of_NoDup.
      * intros e [[_ He]%list_elem_of_filter|[He1 He2]%list_elem_of_filter]%elem_of_app.
        -- apply Hin1 in He as (d & -> & Hd & Hn).
           intros [_ [(d' & [= <-] & _ & Hn')|(k & _ & Hf)]%Hin2]%list_elem_of_filter.
           ++ set_solver.
           ++ by apply file_of_not_dir in Hf.
        -- apply file_of_not_dir in He2. by rewrite He2 in He1.
Qed.

Lemma response_keys_cons r rs :
  response_keys (r :: rs)
  = match Contents r with
    | Some contents => if (HTTPStatusCode r =? 200)%Z then contents else []
    | None => []
    end ++ response_keys rs.
Proof. reflexivity. Qed.

Lemma last_token_cons r rs next_token :
  last_token (r :: rs) next_token
  = last_token rs match NextContinuationToken r with
                  | Some t => Some t
                  | None => next_token
                  end.
Proof. reflexivity. Qed.

Lemma on_responses_eq rs : forall next_token dup,
  on_responses rs next_token dup
  = ((on_keys (response_keys rs) dup).1, last_token rs next_token,
     (on_keys (response_keys rs) dup).2).
Proof.
  induction rs as [|r rs IH]; intros next_token dup; [done|].
  rewrite response_keys_cons, last_token_cons, on_keys_app.
  cbn [process_responses].
  destruct (Contents r) as [contents|]; [|by rewrite IH].
  destruct (HTTPStatusCode r =? 200)%Z; [|by rewrite IH].
  destruct (on_keys contents dup). by rewrite IH.
Qed.

(** The generator yields what a run over the visited keys yields. *)
Lemma _list_dir_or_file_eq fuel : forall start_token dup w,
  match visited_keys (paginate (_client self) bucket dir_path) fuel start_token with
  | Some keys =>
      exists w',
        _list_dir_or_file self bucket root dir_path list_dir list_file suffix
          recursive fuel start_token dup w
        = Some ((on_keys keys dup).1, (on_keys keys dup).2, w')
  | None =>
      _list_dir_or_file self bucket root dir_path list_dir list_file suffix
        recursive fuel start_token dup w = None
  end.
Proof.
  induction fuel as [|fuel IH]; intros start_token dup w; simpl; [done|].
  rewrite on_responses_eq.
  set (rs := paginate (_client self) bucket dir_path start_token).
  destruct (last_token rs None) as [t|]; [|by eexists].
  match goal with
  | |- context [_list_dir_or_file _ _ _ _ _ _ _ _ fuel (Some t) ?d ?w1] =>
      specialize (IH (Some t) d w1)
  end.
  destruct (visited_keys _ fuel (Some t)) as [keys|].
  - destruct IH as [w' ->]. exists w'. by rewrite on_keys_app.
  - by rewrite IH.
Qed.

End ListingProps.

(** ** The paged store *)

Lemma last_token_Some rs : forall acc t,
  last_token rs acc = Some t ->
  acc = Some t \/ exists j r, rs !! j = Some r /\ NextContinuationToken r = Some t.
Proof.
  induction rs as [|r rs IH]; intros acc t; simpl; [by left|].
  intros [H|(j & r' & Hj & Ht)]%IH.
  - destruct (NextContinuationToken r) as [t'|] eqn:E; [|by left].
    right. exists 0, r. by rewrite E.
  - right. by exists (S j), r'.
Qed.

Lemma last_token_None rs : forall acc,
  last_token rs acc = None ->
  acc = None /\ forall r, r ∈ rs -> NextContinuationToken r = None.
Proof.
  induction rs as [|r rs IH]; intros acc H.
  - split; [done|]. by intros r ?%elem_of_nil.
  - simpl in H. apply IH in H as [Hacc Hall].
    destruct (NextContinuationToken r) as [t|] eqn:E; [done|].
    split; [done|]. by intros r' [->|Hr]%elem_of_cons; [|apply Hall].
Qed.

Lemma responses_from_drop s : forall i pages,
  drop s (S3.responses_from i pages) = S3.responses_from (i + s) (drop s pages).
Proof.
  induction s as [|s IH]; intros i pages.
  - by rewrite Nat.add_0_r.
  - destruct pages as [|keys rest]; [done|]. simpl.
    rewrite IH. f_equal. lia.
Qed.

Lemma responses_from_keys pages : forall m i,
  response_keys (take m (S3.responses_from i pages)) = mjoin (take m pages).
Proof.
  induction pages as [|keys rest IH]; intros m i; [by destruct m|].
  destruct m as [|m]; [done|]. cbn [take S3.responses_from firstn].
  rewrite response_keys_cons, IH. cbn [Contents HTTPStatusCode].
  by destruct keys.
Qed.

Lemma responses_from_token pages : forall i j r,
  S3.responses_from i pages !! j = Some r ->
  NextContinuationToken r
  = if decide (S j < length pages) then Some (S (i + j)) else None.
Proof.
  induction pages as [|keys rest IH]; intros i j r; [done|].
  destruct j as [|j]; simpl.
  - intros [= <-]. cbn [NextContinuationToken].
    destruct rest; cbn [length]; case_decide; try lia; try done.
    f_equal. lia.
  - intros H%IH. rewrite H. cbn [length].
    repeat case_decide; try lia; try done. f_equal. lia.
Qed.

Section PagedStore.

Variable chunk : nat -> nat.
Variable pages : list (list string).

(** With enough fuel a traversal ends, and it reads every key of the
    pages from its starting page on, whatever the number of pages one
    paginator delivers. *)
Lemma visited_keys_pages fuel : forall start_token : option token,
  length pages - default 0 start_token < fuel ->
  exists keys,
    visited_keys (S3.paginate_pages chunk pages) fuel start_token = Some keys /\
    forall k, k ∈ keys <-> k ∈ mjoin (drop (default 0 start_token) pages).
Proof.
  induction fuel as [|fuel IH]; intros start_token Hfuel; [lia|].
  cbn [visited_keys].
  set (s := default 0 start_token) in *.
  set (Q := drop s pages).
  assert (length Q = length pages - s) as HQ by apply length_drop.
  assert (S3.paginate_pages chunk pages start_token
          = take (S (chunk s)) (S3.responses_from s Q)) as ->.
  { unfold S3.paginate_pages. fold s. by rewrite responses_from_drop. }
  rewrite responses_from_keys.
  destruct (last_token _ None) as [t|] eqn:E.
  - apply last_token_Some in E as [?|(j & r & Hj & Ht)]; [done|].
    apply lookup_take_Some in Hj as [Hj Hjc].
    apply responses_from_token in Hj. rewrite Ht in Hj.
    case_decide as Hlast; [|done]. injection Hj as ->.
    destruct (IH (Some (S (s + j)))) as (keys & Hv & Hkeys); [simpl; lia|].
    match goal with
    | |- context [visited_keys ?f ?n ?t] =>
        replace (visited_keys f n t) with (Some keys) by (symmetry; exact Hv)
    end.
    eexists; split; [done|]. intros k.
    change (default 0 (Some (S (s + j)))) with (S (s + j)) in Hkeys.
    replace (drop (S (s + j)) pages) with (drop (S j) Q) in Hkeys
      by (unfold Q; rewrite drop_drop; f_equal; lia).
    rewrite elem_of_app, Hkeys.
    rewrite !list_elem_of_join. split.
    + intros [(l & Hk & Hl)|(l & Hk & Hl)]; exists l; (split; [done|]).
      * apply elem_of_take in Hl as (i & Hi & _). exact (list_elem_of_lookup_2 _ _ _ Hi).
      * apply list_elem_of_lookup in Hl as (i & Hi).
        rewrite lookup_drop in Hi. exact (list_elem_of_lookup_2 _ _ _ Hi).
    + intros (l & Hk & Hl). apply list_elem_of_lookup in Hl as (i & Hi).
      destruct (decide (i < S (chunk s))).
      * left. exists l. split; [done|]. apply elem_of_take. eauto.
      * right. exists l. split; [done|]. apply list_elem_of_lookup.
        exists (i - S j). rewrite lookup_drop.
        replace (S j + (i - S j)) with i by lia. exact Hi.
  - apply last_token_None in E as [_ Hall].
    eexists; split; [done|]. intros k.
    destruct Q as [|q [|q' Q']];
      [by rewrite take_nil|by cbn [firstn]; rewrite take_nil|].
    exfalso. cbn [take S3.responses_from firstn] in Hall.
    by specialize (Hall _ (list_elem_of_here _ _)).
Qed.

End PagedStore.

(** ** Listing a paged store *)

Lemma list_dir_or_file_inv self dir_path list_dir list_file suffix recursive w g w' :
  list_dir_or_file self dir_path list_dir list_file suffix recursive w = (Ok g, w') ->
  exists bucket obj_name,
    _parse_path (path_mapping self) dir_path = Ok (bucket, obj_name) /\
    w' = w /\
    g = generator_for self bucket (root_of obj_name) list_dir list_file suffix recursive.
Proof.
  unfold list_dir_or_file.
  destruct (list_dir && _); [done|].
  destruct (match suffix with Some SuffixOther => true | _ => false end); [done|].
  unfold mbind, M_bind, lift.
  destruct (_parse_path (path_mapping self) dir_path) as [[bucket obj_name]|e]; [|done].
  intros [= <- <-]. by exists bucket, obj_name.
Qed.

Lemma list_dir_or_file_parsed self dir_path list_dir list_file suffix recursive w
    bucket obj_name :
  list_dir && match suffix with Some _ => true | None => false end = false ->
  match suffix with Some SuffixOther => true | _ => false end = false ->
  _parse_path (path_mapping self) dir_path = Ok (bucket, obj_name) ->
  list_dir_or_file self dir_path list_dir list_file suffix recursive w
  = (Ok (generator_for self bucket (root_of obj_name) list_dir list_file suffix recursive),
     w).
Proof.
  intros H1 H2 Hp. unfold list_dir_or_file. rewrite H1, H2.
  unfold mbind, M_bind, lift. by rewrite Hp.
Qed.

Lemma elem_of_filtered_pages (P : string -> Prop) `{!forall k, Decision (P k)}
    (pages : list (list string)) k :
  k ∈ mjoin (filter P <$> pages) <-> P k /\ k ∈ mjoin pages.
Proof.
  rewrite !list_elem_of_join. split.
  - intros (l & Hk & (l' & -> & Hl')%list_elem_of_fmap).
    apply list_elem_of_filter in Hk as [HP Hk]. eauto.
  - intros (HP & l & Hk & Hl). exists (filter P l). split.
    + by apply list_elem_of_filter.
    + by apply list_elem_of_fmap_2.
Qed.

Section ListingPagedStore.

Variable pm : path_mapping_t.
Variable name : string.
Variable pages : list (list string).
Variable body : string -> string.
Variable chunk : nat -> nat.
Variables bucket root : string.
Variables list_dir list_file : bool.
Variable suffix : option suffix_arg.
Variable recursive : bool.

Let self := {| path_mapping := pm; _client := S3.store name pages body chunk |}.

Local Abbreviation listed := (listed_key name pages bucket root).

Lemma visited_keys_store fuel :
  length pages < fuel ->
  exists keys,
    visited_keys (paginate (_client self) bucket root) fuel None = Some keys /\
    forall k, k ∈ keys <-> listed k.
Proof.
  intros Hfuel. unfold listed_key. cbn [self _client S3.store paginate].
  destruct (String.eqb_spec bucket name) as [->|Hne].
  - destruct (visited_keys_pages chunk
                (filter (fun k => Is_true (Py.startswith k root)) <$> pages) fuel None)
      as (keys & Hv & Hkeys).
    { rewrite length_fmap. simpl. lia. }
    exists keys. split; [done|]. intros k. rewrite Hkeys.
    change (drop (default 0 None) ?l) with l.
    rewrite elem_of_filtered_pages. naive_solver.
  - destruct fuel as [|fuel]; [lia|]. exists []. split; [done|].
    intros k. split; [by intros ?%elem_of_nil|]. by intros [? _].
Qed.

(** On a paged store the generator ends, and it yields what a run over
    the listed keys yields. *)
Lemma generator_for_store fuel w :
  length pages < fuel ->
  exists keys w',
    generator_for self bucket root list_dir list_file suffix recursive fuel w
    = Some ((process_contents root list_dir list_file suffix recursive keys ∅).1, w') /\
    forall k, k ∈ keys <-> listed k.
Proof.
  intros Hfuel. destruct (visited_keys_store fuel Hfuel) as (keys & Hv & Hkeys).
  pose proof (_list_dir_or_file_eq self bucket root root list_dir list_file suffix
                recursive fuel None ∅ w) as H.
  rewrite Hv in H. destruct H as [w' H].
  exists keys, w'. split; [|done]. unfold generator_for. by rewrite H.
Qed.

End ListingPagedStore.

Lemma append_slash_inj a : forall b, a +:+ "/" = b +:+ "/" -> a = b.
Proof.
  induction a as [|c a IH]; intros [|c' b]; cbn [String.append]; try done.
  - intros [= <- H]. by destruct b.
  - intros [= -> H]. by destruct a.
  - intros [= <- H]. f_equal. by apply IH.
Qed.

Lemma endswith_eq s x :
  Py.endswith s x
  = String.eqb s x || match s with
                      | EmptyString => false
                      | String _ s' => Py.endswith s' x
                      end.
Proof. by destruct s. Qed.

Lemma endswith_append d x : Py.endswith (d +:+ x) x = true.
Proof.
  induction d as [|c d IH].
  - rewrite endswith_eq. change (EmptyString +:+ x) with x.
    by rewrite String.eqb_refl.
  - change (String c d +:+ x) with (String c (d +:+ x)).
    by rewrite endswith_eq, IH, orb_true_r.
Qed.

Lemma endswith_slice_from n : forall s x,
  Py.endswith (Py.slice_from n s) x = true -> Py.endswith s x = true.
Proof.
  induction n as [|n IH]; intros [|c s] x; cbn [Py.slice_from]; try done.
  intros H%IH. by rewrite endswith_eq, H, orb_true_r.
Qed.

Lemma filter_slash_render (out : list entry) :
  (forall e, e ∈ out ->
             Py.endswith (render e) "/" = is_dir_entry e) ->
  filter (fun s => Is_true (Py.endswith s "/")) (render <$> out)
  = render <$> filter (fun e => Is_true (is_dir_entry e)) out.
Proof.
  induction out as [|e out IH]; intros H; [done|].
  rewrite fmap_cons, !filter_cons, (H e) by apply list_elem_of_here.
  rewrite IH by (intros; apply H; by apply list_elem_of_further).
  by destruct (decide _).
Qed.

Section SameSet.

Variable root : string.
Variables list_dir list_file : bool.
Variable suffix : option suffix_arg.
Variable recursive : bool.

Local Abbreviation run_over :=
  (process_contents root list_dir list_file suffix recursive).

(** The entries that appear depend on the set of keys read only, not on
    their order, their grouping or the number of times a key is read. *)
Lemma run_over_same_set keys1 keys2 :
  (forall k, k ∈ keys1 <-> k ∈ keys2) ->
  forall e, e ∈ (run_over keys1 ∅).1 <-> e ∈ (run_over keys2 ∅).1.
Proof.
  intros Hsame e.
  destruct (run_over keys1 ∅) as [out1 d1] eqn:E1.
  destruct (run_over keys2 ∅) as [out2 d2] eqn:E2.
  destruct (on_keys_spec _ _ _ _ _ _ _ _ _ E1) as (_ & Hin1 & _).
  destruct (on_keys_spec _ _ _ _ _ _ _ _ _ E2) as (_ & Hin2 & _).
  cbn [fst]. rewrite Hin1, Hin2.
  setoid_rewrite list_elem_of_bind. setoid_rewrite Hsame. done.
Qed.

Lemma run_over_dirs_once keys :
  NoDup (render <$> filter (fun e => Is_true (is_dir_entry e)) (run_over keys ∅).1).
Proof.
  destruct (run_over keys ∅) as [out d] eqn:E.
  destruct (on_keys_spec _ _ _ _ _ _ _ _ _ E) as (_ & _ & Hnd).
  cbn [fst]. apply NoDup_fmap_2_strong; [|done].
  intros [a|a] [b|b] [Ha _]%list_elem_of_filter [Hb _]%list_elem_of_filter; try done.
  cbn [render]. by intros ->%append_slash_inj.
Qed.

(** Unless a key itself ends in a slash, the strings ending in a
    slash are the directories, and none comes twice. *)
Lemma run_over_slash_once keys :
  (forall k, k ∈ keys -> Py.endswith k "/" = false) ->
  NoDup (filter (fun s => Is_true (Py.endswith s "/")) (render <$> (run_over keys ∅).1)).
Proof.
  intros Hkeys. rewrite filter_slash_render; [apply run_over_dirs_once|].
  destruct (run_over keys ∅) as [out d] eqn:E.
  destruct (on_keys_spec _ _ _ _ _ _ _ _ _ E) as (_ & Hin & _).
  cbn [fst]. intros e [(dir & -> & _)|(k & Hk & He)]%Hin.
  - apply endswith_append.
  - revert He. unfold own_file. cbv zeta.
    destruct (_ || _); [by intros ?%elem_of_nil|].
    destruct (_ && _); [|by intros ?%elem_of_nil].
    intros ->%list_elem_of_singleton. cbn [render is_dir_entry].
    destruct (Py.endswith (Py.slice_from _ k) "/") eqn:Hs; [|done].
    apply endswith_slice_from in Hs. by rewrite (Hkeys k Hk) in Hs.
Qed.

End SameSet.

(** C2, on a bucket with a directory marker object: whenever the bucket
    holds the keys "d/y/" and "d/y/z.txt", whatever else it holds,
    however its keys are cut into pages and however many pages a
    paginator delivers, the listing of "s3://bucket/d" for directories
    and files ends and hands the caller "y/" at two different
    positions: once for the marker, through [yield path], and once for
    the directory of "d/y/z.txt".  No page layout avoids the duplicate. *)
Theorem marker_listed_twice_in_every_layout pages body chunk recursive fuel w :
  "d/y/" ∈ mjoin pages ->
  "d/y/z.txt" ∈ mjoin pages ->
  length pages < fuel ->
  exists out,
    listing {| path_mapping := None; _client := S3.store "bucket" pages body chunk |}
      "s3://bucket/d" true true None recursive fuel w = Ok (Some out) /\
    (exists i j, i <> j /\ out !! i = Some "y/" /\ out !! j = Some "y/") /\
    ~ NoDup out.
Proof.
  intros Hmarker Hfile Hfuel. unfold listing.
  rewrite (list_dir_or_file_parsed _ _ _ _ _ _ _ "bucket" "d") by reflexivity.
  change (root_of "d") with "d/".
  destruct (generator_for_store None "bucket" pages body chunk "bucket" "d/"
              true true None recursive fuel w Hfuel) as (keys & w' & -> & Hk).
  eexists. split; [done|].
  destruct (process_contents "d/" true true None recursive keys ∅) as [out dup] eqn:E.
  destruct (on_keys_spec _ _ _ _ _ _ _ _ _ E) as (_ & Hin & _). cbn [fst].
  assert (DirEntry "y" ∈ out) as Hd.
  { apply Hin. left. exists "y". split; [done|]. split; [|set_solver].
    apply list_elem_of_bind. exists "d/y/z.txt". split.
    - destruct recursive; apply list_elem_of_here.
    - apply Hk. by repeat split. }
  assert (FileEntry "y/" ∈ out) as Hf.
  { apply Hin. right. exists "d/y/". split.
    - apply Hk. by repeat split.
    - destruct recursive; apply list_elem_of_here. }
  apply list_elem_of_lookup in Hd as [i Hi]. apply list_elem_of_lookup in Hf as [j Hj].
  assert (i <> j) as Hij.
  { intros ->. rewrite Hi in Hj. discriminate. }
  assert ((render <$> out) !! i = Some "y/") as Hi' by (by rewrite list_lookup_fmap, Hi).
  assert ((render <$> out) !! j = Some "y/") as Hj' by (by rewrite list_lookup_fmap, Hj).
  split; [by exists i, j|].
  intros Hnd. apply Hij. by apply (NoDup_lookup _ _ _ _ Hnd Hi' Hj').
Qed.

Lemma marker_listed_twice_in_every_layout_witness :
  exists out,
    listing (S3.backend "bucket" [["d/y/"]; ["d/x.txt"]; ["d/y/z.txt"]] (fun _ => 0))
      "s3://bucket/d" true true None false 4 world0 = Ok (Some out) /\
    (exists i j, i <> j /\ out !! i = Some "y/" /\ out !! j = Some "y/") /\
    ~ NoDup out.
Proof.
  apply (marker_listed_twice_in_every_layout
           [["d/y/"]; ["d/x.txt"]; ["d/y/z.txt"]] (fun _ => EmptyString)
           (fun _ => 0) false 4 world0).
  - simpl. apply list_elem_of_here.
  - simpl. do 2 apply list_elem_of_further. apply list_elem_of_here.
  - simpl. lia.
Defined.

(** The same keys in one page and in three: the duplicate is there both
    times. *)
Example marker_in_one_page_and_in_three :
  listing (S3.backend "bucket" [["d/y/"; "d/x.txt"; "d/y/z.txt"]] (fun _ => 0))
    "s3://bucket/d" true true None false 2 world0 = Ok (Some ["y/"; "x.txt"; "y/"]) /\
  listing (S3.backend "bucket" [["d/y/"]; ["d/x.txt"]; ["d/y/z.txt"]] (fun _ => 0))
    "s3://bucket/d" true true None false 4 world0 = Ok (Some ["y/"; "x.txt"; "y/"]).
Proof. split; vm_compute; reflexivity. Qed.

(** C1: whenever the bucket holds exactly the keys "d/x.txt" and
    "d/y/z.txt", in whatever pages, listing "s3://bucket/d" for
    directories and files, without suffix and not recursively, ends and
    yields the strings "y/" and "x.txt" and no other; "y/z.txt" is not
    among them. *)
Theorem listing_one_level pages body chunk fuel w :
  (forall k, k ∈ mjoin pages <-> k = "d/x.txt" \/ k = "d/y/z.txt") ->
  length pages < fuel ->
  exists out,
    listing {| path_mapping := None; _client := S3.store "bucket" pages body chunk |}
      "s3://bucket/d" true true None false fuel w = Ok (Some out) /\
    (forall s, s ∈ out <-> s = "y/" \/ s = "x.txt") /\
    "y/z.txt" ∉ out.
Proof.
  intros Hkeys Hfuel. unfold listing.
  rewrite (list_dir_or_file_parsed _ _ _ _ _ _ _ "bucket" "d") by reflexivity.
  change (root_of "d") with "d/".
  destruct (generator_for_store None "bucket" pages body chunk "bucket" "d/"
              true true None false fuel w Hfuel) as (keys & w' & -> & Hk).
  eexists. split; [done|].
  assert (forall k, k ∈ keys <-> k ∈ ["d/x.txt"; "d/y/z.txt"]) as Hsame.
  { intros k. rewrite Hk. unfold listed_key. rewrite Hkeys.
    rewrite elem_of_cons, list_elem_of_singleton. split; [tauto|].
    intros [-> | ->]; (split; [done|split; [exact I|tauto]]). }
  pose proof (run_over_same_set "d/" true true None false _ _ Hsame) as Hout.
  change (process_contents "d/" true true None false ["d/x.txt"; "d/y/z.txt"] ∅).1
    with [FileEntry "x.txt"; DirEntry "y"] in Hout.
  assert (forall s, s ∈ render <$> (process_contents "d/" true true None false keys ∅).1
                    <-> s = "y/" \/ s = "x.txt") as Hs.
  { intros s. rewrite list_elem_of_fmap. setoid_rewrite Hout. split.
    - intros (e & -> & [->|[->|[]%elem_of_nil]%elem_of_cons]%elem_of_cons); auto.
    - intros [-> | ->].
      + exists (DirEntry "y"). split; [done|]. apply elem_of_cons. right. apply list_elem_of_here.
      + exists (FileEntry "x.txt"). split; [done|]. apply list_elem_of_here. }
  split; [exact Hs|]. rewrite Hs. by intros [|].
Qed.

Lemma listing_one_level_witness :
  exists out,
    listing (S3.backend "bucket" [["d/y/z.txt"]; ["d/x.txt"]] (fun _ => 0))
      "s3://bucket/d" true true None false 3 world0 = Ok (Some out) /\
    (forall s, s ∈ out <-> s = "y/" \/ s = "x.txt") /\
    "y/z.txt" ∉ out.
Proof.
  apply (listing_one_level [["d/y/z.txt"]; ["d/x.txt"]] (fun _ => EmptyString)
           (fun _ => 0) 3 world0).
  - intros k. simpl. rewrite elem_of_cons, list_elem_of_singleton. tauto.
  - simpl. lia.
Defined.

Example listing_one_level_single_page :
  listing (S3.backend "bucket" [["d/x.txt"; "d/y/z.txt"]] (fun _ => 0))
    "s3://bucket/d" true true None false 2 world0 = Ok (Some ["x.txt"; "y/"]) /\
  listing (S3.backend "bucket" [["d/y/z.txt"; "d/x.txt"]] (fun _ => 0))
    "s3://bucket/d" true true None false 2 world0 = Ok (Some ["y/"; "x.txt"]).
Proof. split; vm_compute; reflexivity. Qed.

Example listing_with_suffix :
  listing (S3.backend "bucket" [["a.txt"; "a.csv"]] (fun _ => 0))
    "s3://bucket" false true (Some (SuffixStr ".txt")) false 2 world0
  = Ok (Some ["a.txt"]).
Proof. vm_compute. reflexivity. Qed.

(** C3, on a bucket with a directory marker object: the key "d/y/" is
    yielded through the file branch as "y/", and the key "d/y/z.txt"
    makes the directory branch yield "y/" again, in both listing modes.
    Without a marker the directory comes once. *)
Theorem directory_marker_listed_twice :
  listing (S3.backend "bucket" [["d/y/"; "d/y/z.txt"]] (fun _ => 0))
    "s3://bucket/d" true true None false 2 world0 = Ok (Some ["y/"; "y/"]) /\
  listing (S3.backend "bucket" [["d/y/"; "d/y/z.txt"]] (fun _ => 0))
    "s3://bucket/d" true true None true 2 world0 = Ok (Some ["y/"; "y/"; "y/z.txt"]) /\
  listing (S3.backend "bucket" [["d/x.txt"; "d/y/z.txt"]] (fun _ => 0))
    "s3://bucket/d" true true None true 2 world0 = Ok (Some ["x.txt"; "y/"; "y/z.txt"]).
Proof. repeat split; vm_compute; reflexivity. Qed.

(** C4, on the root "a/" and the key "a/a/b": after the root is cut off
    the front, [replace] removes it a second time from inside the rest, so
    the code sees the one segment "b" where the specification has "a" and
    "b", and the one-level listing yields "a/b" as a file. *)
Theorem root_removed_twice_from_key :
  sparse_path_of "a/" (Py.slice_from (String.length "a/") "a/a/b") = ["b"] /\
  spec_segments "a/" "a/a/b" = ["a"; "b"] /\
  listing (S3.backend "bucket" [["a/a/b"]] (fun _ => 0))
    "s3://bucket/a" true true None false 2 world0 = Ok (Some ["a/b"]).
Proof. repeat split; vm_compute; reflexivity. Qed.

(** * Further properties *)

(** ** Characters of a path *)

Lemma has_char_app c s t : has_char c (s +:+ t) = has_char c s || has_char c t.
Proof.
  induction s as [|a s IH]; [done|].
  change (String a s +:+ t) with (String a (s +:+ t)).
  cbn [has_char]. by rewrite IH, orb_assoc.
Qed.

Lemma sub_backslashes_clean s : forall in_run,
  has_char Py.backslash (Py.sub_backslashes in_run s) = false.
Proof.
  induction s as [|a s IH]; intros in_run; [done|]. cbn [Py.sub_backslashes].
  destruct (Ascii.eqb a Py.backslash) eqn:E.
  - destruct in_run; [apply IH|]. cbn [has_char]. by rewrite IH.
  - cbn [has_char]. by rewrite E, IH.
Qed.

Lemma sub_backslashes_id s : forall in_run,
  has_char Py.backslash s = false -> Py.sub_backslashes in_run s = s.
Proof.
  induction s as [|a s IH]; intros in_run; [done|]. cbn [has_char Py.sub_backslashes].
  intros [Ha Hs]%orb_false_elim. rewrite Ha. f_equal. by apply IH.
Qed.

(** X1: normalising a path leaves no backslash in it, and normalising
    twice gives what normalising once gives. *)
Theorem _format_path_idempotent s :
  has_char Py.backslash (_format_path s) = false /\
  _format_path (_format_path s) = _format_path s.
Proof.
  split; [apply sub_backslashes_clean|].
  apply sub_backslashes_id, sub_backslashes_clean.
Qed.

Lemma dot_run_id r : has_char Py.newline r = false -> Py.dot_run r = r.
Proof.
  induction r as [|a r IH]; [done|]. cbn [has_char Py.dot_run].
  intros [Ha Hr]%orb_false_elim. rewrite Ha. f_equal. by apply IH.
Qed.

Lemma dot_run_clean r : has_char Py.newline (Py.dot_run r) = false.
Proof.
  induction r as [|a r IH]; [done|]. cbn [Py.dot_run].
  destruct (Ascii.eqb a Py.newline) eqn:E; [done|]. cbn [has_char]. by rewrite E, IH.
Qed.

Lemma dot_run_has_char c r :
  has_char c r = false -> has_char c (Py.dot_run r) = false.
Proof.
  induction r as [|a r IH]; [done|]. cbn [has_char Py.dot_run].
  intros [Ha Hr]%orb_false_elim.
  destruct (Ascii.eqb a Py.newline); [done|]. cbn [has_char]. by rewrite Ha, IH.
Qed.

Lemma startswith_app p r : Py.startswith (p +:+ r) p = true.
Proof.
  induction p as [|a p IH]; [apply startswith_nil|].
  change (String a p +:+ r) with (String a (p +:+ r)).
  by rewrite startswith_cons, Ascii.eqb_refl.
Qed.

Lemma match_s3_prefix r :
  Py.match_s3 ("s3://" +:+ r)
  = match Py.dot_run r with EmptyString => None | g => Some g end.
Proof.
  unfold Py.match_s3. rewrite startswith_app.
  by change (Py.slice_from 5 ("s3://" +:+ r)) with r.
Qed.

Lemma match_nonempty (r : string) :
  r <> EmptyString ->
  match r with EmptyString => None | String a g => Some (String a g) end = Some r.
Proof. by destruct r. Qed.

Lemma split1_spec g :
  (Py.split1 Py.slash g = [g] /\ has_char Py.slash g = false) \/
  (exists b k, Py.split1 Py.slash g = [b; k] /\ g = b +:+ "/" +:+ k /\
               has_char Py.slash b = false).
Proof.
  induction g as [|c g IH]; [by left|]. rewrite split1_cons. cbn [has_char].
  destruct (Ascii.eqb_spec c Py.slash) as [->|Hc].
  - right. by exists EmptyString, g.
  - destruct IH as [[-> Hg]|(b & k & -> & -> & Hb)].
    + by left.
    + right. exists (String c b), k. cbn [has_char].
      by rewrite (proj2 (Ascii.eqb_neq c Py.slash) Hc), Hb.
Qed.

Lemma split1_joined b k :
  has_char Py.slash b = false -> Py.split1 Py.slash (b +:+ "/" +:+ k) = [b; k].
Proof.
  induction b as [|c b IH]; [done|]. cbn [has_char].
  intros [Hc Hb]%orb_false_elim.
  change (String c b +:+ "/" +:+ k) with (String c (b +:+ "/" +:+ k)).
  by rewrite split1_cons, Hc, IH.
Qed.

Lemma split1_whole b : has_char Py.slash b = false -> Py.split1 Py.slash b = [b].
Proof.
  induction b as [|c b IH]; [done|]. cbn [has_char].
  intros [Hc Hb]%orb_false_elim. by rewrite split1_cons, Hc, IH.
Qed.

Lemma parse_joined_parts bucket key :
  has_char Py.slash bucket = false ->
  has_char Py.backslash bucket = false ->
  has_char Py.newline bucket = false ->
  has_char Py.backslash key = false ->
  has_char Py.newline key = false ->
  _parse_path None ("s3://" +:+ bucket +:+ "/" +:+ key) = Ok (bucket, key).
Proof.
  intros Hs Hb Hn Hkb Hkn. unfold _parse_path, _map_path, _format_path. cbv zeta.
  rewrite sub_backslashes_id by (by rewrite !has_char_app, Hb, Hkb).
  rewrite match_s3_prefix, dot_run_id by (by rewrite !has_char_app, Hn, Hkn).
  rewrite match_nonempty by (by destruct bucket).
  by rewrite split1_joined.
Qed.

(** X2: a path written as the scheme, a bucket, a slash and a key parses
    back to that bucket and that key, and a path without a key to the
    bucket and the empty key, when the bucket has no slash and neither
    part has a backslash or a newline. *)
Theorem _parse_path_of_parts bucket key :
  has_char Py.slash bucket = false ->
  has_char Py.backslash bucket = false ->
  has_char Py.newline bucket = false ->
  has_char Py.backslash key = false ->
  has_char Py.newline key = false ->
  _parse_path None ("s3://" +:+ bucket +:+ "/" +:+ key) = Ok (bucket, key) /\
  (bucket <> EmptyString -> _parse_path None ("s3://" +:+ bucket) = Ok (bucket, "")).
Proof.
  intros Hs Hb Hn Hkb Hkn. split; [by apply parse_joined_parts|].
  unfold _parse_path, _map_path, _format_path. cbv zeta.
  intros Hne. rewrite sub_backslashes_id by (by rewrite !has_char_app, Hb).
  rewrite match_s3_prefix, dot_run_id, match_nonempty by done.
  by rewrite split1_whole.
Qed.

Lemma _parse_path_of_parts_witness :
  _parse_path None ("s3://" +:+ "bucket" +:+ "/" +:+ "a/b.txt") = Ok ("bucket", "a/b.txt") /\
  ("bucket" <> EmptyString -> _parse_path None ("s3://" +:+ "bucket") = Ok ("bucket", "")).
Proof. apply (_parse_path_of_parts "bucket" "a/b.txt"); reflexivity. Defined.

(** X3: whatever parses, the bucket found has no slash, neither the
    bucket nor the key has a backslash or a newline, and the first line
    of the mapped and normalised path is the scheme, the bucket and, after
    a slash, the key (a path with no slash after the bucket gives the
    empty key). *)
Theorem _parse_path_parts pm s bucket key :
  _parse_path pm s = Ok (bucket, key) ->
  has_char Py.slash bucket = false /\
  has_char Py.backslash bucket = false /\ has_char Py.newline bucket = false /\
  has_char Py.backslash key = false /\ has_char Py.newline key = false /\
  (Py.dot_run (_format_path (_map_path pm s)) = "s3://" +:+ bucket +:+ "/" +:+ key \/
   key = EmptyString /\
   Py.dot_run (_format_path (_map_path pm s)) = "s3://" +:+ bucket).
Proof.
  unfold _parse_path. cbv zeta. set (f := _format_path (_map_path pm s)).
  assert (has_char Py.backslash f = false) as Hf by apply sub_backslashes_clean.
  unfold Py.match_s3. destruct (Py.startswith f "s3://") eqn:P; [|done].
  apply startswith_split in P. change (String.length "s3://") with 5 in P.
  set (r := Py.slice_from 5 f) in *.
  assert (Py.dot_run f = "s3://" +:+ Py.dot_run r) as Hd by (by rewrite P).
  assert (has_char Py.backslash (Py.dot_run r) = false) as Hrb.
  { apply dot_run_has_char. rewrite P, has_char_app in Hf.
    by apply orb_false_elim in Hf as [_ ?]. }
  pose proof (dot_run_clean r) as Hrn.
  destruct (Py.dot_run r) as [|c g] eqn:D; [done|]. rewrite Hd. clear Hd.
  destruct (split1_spec (String c g)) as [[-> Hs]|(b & k & -> & Hg & Hs)].
  - intros [= <- <-]. repeat split; try done. by right.
  - intros [= <- <-]. rewrite Hg, !has_char_app in Hrb, Hrn.
    apply orb_false_elim in Hrb as [? [_ ?]%orb_false_elim].
    apply orb_false_elim in Hrn as [? [_ ?]%orb_false_elim].
    repeat split; try done. left. by rewrite Hg.
Qed.

Lemma _parse_path_parts_witness :
  has_char Py.slash "bucket" = false /\
  has_char Py.backslash "bucket" = false /\ has_char Py.newline "bucket" = false /\
  has_char Py.backslash "a/b" = false /\ has_char Py.newline "a/b" = false /\
  (Py.dot_run (_format_path (_map_path None "s3:/\bucket\\a\b"))
   = "s3://" +:+ "bucket" +:+ "/" +:+ "a/b" \/
   "a/b" = EmptyString /\
   Py.dot_run (_format_path (_map_path None "s3:/\bucket\\a\b")) = "s3://" +:+ "bucket").
Proof. apply (_parse_path_parts None "s3:/\bucket\\a\b" "bucket" "a/b"). reflexivity. Defined.

(** ** Joining paths *)

Lemma append_assoc (s t u : string) : (s +:+ t) +:+ u = s +:+ t +:+ u.
Proof.
  induction s as [|a s IH]; [done|].
  change ((String a s +:+ t) +:+ u) with (String a ((s +:+ t) +:+ u)).
  by rewrite IH.
Qed.

Lemma sub_backslashes_has_char c s : forall in_run,
  c <> Py.slash -> has_char c s = false ->
  has_char c (Py.sub_backslashes in_run s) = false.
Proof.
  induction s as [|a s IH]; intros in_run Hc; [done|]. cbn [has_char Py.sub_backslashes].
  intros [Ha Hs]%orb_false_elim.
  destruct (Ascii.eqb a Py.backslash).
  - destruct in_run; [by apply IH|]. cbn [has_char].
    rewrite IH by done. rewrite orb_false_r. apply Ascii.eqb_neq. congruence.
  - cbn [has_char]. by rewrite Ha, IH.
Qed.

Lemma endswith_char_inside c s :
  Py.endswith s (String c EmptyString) = true -> has_char c s = true.
Proof.
  induction s as [|a s IH]; rewrite endswith_eq; [done|]. cbn [has_char].
  intros [[= -> _]%String.eqb_eq|H]%orb_true_elim.
  - by rewrite Ascii.eqb_refl.
  - by rewrite IH, orb_true_r.
Qed.

Lemma endswith_after_prefix p s c :
  s <> EmptyString ->
  Py.endswith (p +:+ s) (String c EmptyString) = Py.endswith s (String c EmptyString).
Proof.
  intros Hs. induction p as [|a p IH]; [done|].
  change (String a p +:+ s) with (String a (p +:+ s)).
  rewrite endswith_eq, IH.
  replace (String.eqb (String a (p +:+ s)) (String c EmptyString)) with false; [done|].
  symmetry. apply String.eqb_neq. intros [= _ H]. by destruct p, s.
Qed.

Lemma drop_last_slash s : Py.drop_last (s +:+ "/") = s.
Proof.
  induction s as [|a s IH]; [done|].
  change (String a s +:+ "/") with (String a (s +:+ "/")).
  cbn [Py.drop_last]. rewrite IH. by destruct s.
Qed.

(** X4: joining a key to a bucket path and parsing the result gives the
    bucket and the normalised key back, whether or not the bucket path
    carries a trailing slash. *)
Theorem join_path_then_parse self bucket key :
  path_mapping self = None ->
  bucket <> EmptyString ->
  has_char Py.slash bucket = false ->
  has_char Py.backslash bucket = false ->
  has_char Py.newline bucket = false ->
  has_char Py.newline key = false ->
  _parse_path None (join_path self ("s3://" +:+ bucket) [key])
  = Ok (bucket, _format_path key) /\
  join_path self ("s3://" +:+ bucket +:+ "/") [key]
  = join_path self ("s3://" +:+ bucket) [key].
Proof.
  intros Hpm Hne Hs Hb Hn Hk.
  assert (join_path self ("s3://" +:+ bucket) [key]
          = "s3://" +:+ bucket +:+ "/" +:+ _format_path key) as Hjoin.
  { unfold join_path. rewrite Hpm. unfold _map_path, _format_path. cbv zeta.
    rewrite (sub_backslashes_id ("s3://" +:+ bucket)) by (by rewrite has_char_app, Hb).
    rewrite (endswith_after_prefix "s3://" bucket) by done.
    destruct (Py.endswith bucket "/") eqn:E.
    { apply endswith_char_inside in E. change "/"%char with Py.slash in E. congruence. }
    cbn [map Py.join]. by rewrite append_assoc. }
  split.
  - rewrite Hjoin. apply parse_joined_parts; try done.
    + apply sub_backslashes_clean.
    + by apply sub_backslashes_has_char.
  - rewrite Hjoin. unfold join_path. rewrite Hpm. unfold _map_path, _format_path. cbv zeta.
    rewrite (sub_backslashes_id ("s3://" +:+ bucket +:+ "/"))
      by (by rewrite !has_char_app, Hb).
    rewrite <- (append_assoc "s3://" bucket "/").
    rewrite endswith_append, drop_last_slash.
    cbn [map Py.join]. by rewrite append_assoc.
Qed.

Lemma join_path_then_parse_witness :
  _parse_path None (join_path (S3.backend "b" [] (fun _ => 0)) ("s3://" +:+ "b") ["a\c"])
  = Ok ("b", _format_path "a\c") /\
  join_path (S3.backend "b" [] (fun _ => 0)) ("s3://" +:+ "b" +:+ "/") ["a\c"]
  = join_path (S3.backend "b" [] (fun _ => 0)) ("s3://" +:+ "b") ["a\c"].
Proof.
  apply (join_path_then_parse (S3.backend "b" [] (fun _ => 0)) "b" "a\c");
    (reflexivity || discriminate).
Defined.

(** ** Probes, [exists], [isdir], [isfile], [get] *)

Lemma _check_bucket_cases self bucket w :
  _check_bucket self bucket w
  = (match head_bucket (_client self) bucket with
     | Ok _ => Ok true
     | Raise e => Raise (bucket_probe_error bucket e)
     end,
     {| requests := requests w ++ [HeadBucket bucket];
        files := files w; tempfiles := tempfiles w |}).
Proof.
  destruct (head_bucket (_client self) bucket) as [[]|e] eqn:E.
  - by apply _check_bucket_found.
  - by apply _check_bucket_raises.
Qed.

Lemma _check_object_cases self bucket obj_name w :
  _check_object self bucket obj_name w
  = (match head_object (_client self) bucket obj_name with
     | Ok _ => Ok true
     | Raise e => Raise (object_probe_error bucket obj_name e)
     end,
     {| requests := requests w ++ [HeadObject bucket obj_name];
        files := files w; tempfiles := tempfiles w |}).
Proof.
  unfold _check_object, try_except_ClientError, mbind, M_bind, issue, lift.
  destruct (head_object (_client self) bucket obj_name) as [[]|e]; [done|].
  by destruct e.
Qed.

(** X5: when [exists] returns, it returns [True], its probe of the object
    succeeded, and that probe is the one request it issued; it never
    returns [False]. *)
Theorem exists_returns_only_true self filepath w b w' :
  exists_ self filepath w = (Ok b, w') ->
  b = true /\
  exists bucket key,
    _parse_path (path_mapping self) filepath = Ok (bucket, key) /\
    head_object (_client self) bucket key = Ok tt /\
    w' = {| requests := requests w ++ [HeadObject bucket key];
            files := files w; tempfiles := tempfiles w |}.
Proof.
  unfold exists_, mbind, M_bind, lift at 1.
  destruct (_parse_path (path_mapping self) filepath) as [[bucket key]|e]; [|done].
  rewrite _check_object_cases.
  destruct (head_object (_client self) bucket key) as [[]|e] eqn:E; [|done].
  intros [= <- <-]. split; [done|]. by exists bucket, key.
Qed.

Lemma exists_returns_only_true_witness :
  true = true /\
  exists bucket key,
    _parse_path None "s3://bucket/a.txt" = Ok (bucket, key) /\
    head_object (S3.store "bucket" [["a.txt"]] (fun _ => EmptyString) (fun _ => 0))
      bucket key = Ok tt /\
    {| requests := [HeadObject "bucket" "a.txt"]; files := ∅; tempfiles := [] |}
    = {| requests := requests world0 ++ [HeadObject bucket key];
         files := files world0; tempfiles := tempfiles world0 |}.
Proof.
  apply (exists_returns_only_true (S3.backend "bucket" [["a.txt"]] (fun _ => 0))
           "s3://bucket/a.txt" world0 true
           {| requests := [HeadObject "bucket" "a.txt"]; files := ∅; tempfiles := [] |}).
  reflexivity.
Defined.

(** X6: on every path and in every world [isdir] issues the requests
    [isfile] issues and fails as [isfile] fails, and when they return,
    [isdir] returns the negation of what [isfile] returns. *)
Theorem isdir_negates_isfile self filepath w :
  isdir self filepath w
  = (match (isfile self filepath w).1 with
     | Ok b => Ok (negb b)
     | Raise e => Raise e
     end, (isfile self filepath w).2).
Proof.
  unfold isdir, isfile, mbind, M_bind, lift.
  destruct (_parse_path (path_mapping self) filepath) as [[bucket key]|e]; [|done].
  rewrite _check_bucket_cases.
  destruct (head_bucket (_client self) bucket) as [[]|e]; [|done].
  cbn [andb]. by destruct (Py.endswith key "/"), (String.eqb key "").
Qed.

Lemma get_cases self filepath bucket key w :
  _parse_path (path_mapping self) filepath = Ok (bucket, key) ->
  get self filepath w
  = match head_object (_client self) bucket key with
    | Raise e =>
        (Raise (object_probe_error bucket key e),
         {| requests := requests w ++ [HeadObject bucket key];
            files := files w; tempfiles := tempfiles w |})
    | Ok _ =>
        (download_fileobj (_client self) bucket key,
         {| requests := requests w ++ [HeadObject bucket key; DownloadFileobj bucket key];
            files := files w; tempfiles := tempfiles w |})
    end.
Proof.
  intros Hp. unfold get, mbind, M_bind, lift at 1. rewrite Hp, _check_object_cases.
  destruct (head_object (_client self) bucket key) as [[]|e]; [|done].
  unfold issue, lift. cbn [requests files tempfiles]. rewrite <- app_assoc.
  by destruct (download_fileobj (_client self) bucket key).
Qed.

(** X7: [get] probes the object first.  When the probe raises, [get]
    issues no download: it raises [TypeError] if the probe raised
    [ClientError], since the [except] clause of [_check_object] calls
    [check_exception] with one argument, and the probe's own exception
    otherwise.  When the probe succeeds, [get] issues the download and
    gives its outcome. *)
Theorem get_probes_before_download self filepath bucket key w :
  _parse_path (path_mapping self) filepath = Ok (bucket, key) ->
  get self filepath w
  = match head_object (_client self) bucket key with
    | Raise (ClientError _) =>
        (Raise (TypeError missing_operation_name),
         {| requests := requests w ++ [HeadObject bucket key];
            files := files w; tempfiles := tempfiles w |})
    | Raise e =>
        (Raise e,
         {| requests := requests w ++ [HeadObject bucket key];
            files := files w; tempfiles := tempfiles w |})
    | Ok _ =>
        (download_fileobj (_client self) bucket key,
         {| requests := requests w ++ [HeadObject bucket key; DownloadFileobj bucket key];
            files := files w; tempfiles := tempfiles w |})
    end.
Proof.
  intros Hp. rewrite (get_cases _ _ _ _ _ Hp).
  by destruct (head_object (_client self) bucket key) as [[]|[]].
Qed.

Lemma get_probes_before_download_witness :
  get (S3.backend "bucket" [["a.txt"]] (fun _ => 0)) "s3://bucket/b.txt" world0
  = (Raise (TypeError missing_operation_name),
     {| requests := [HeadObject "bucket" "b.txt"]; files := ∅; tempfiles := [] |}).
Proof.
  rewrite (get_probes_before_download (S3.backend "bucket" [["a.txt"]] (fun _ => 0))
             "s3://bucket/b.txt" "bucket" "b.txt" world0); reflexivity.
Defined.


(** X8: a path that does not parse makes every operation raise the
    [ValueError] of [_parse_path] and leaves the world as it was: no
    request reaches the store and no file is created. *)
Theorem unparsable_path_stops_every_operation
    {A} self mktemp filepath e (block : string -> M A) w :
  _parse_path (path_mapping self) filepath = Raise e ->
  exists_ self filepath w = (Raise e, w) /\
  isdir self filepath w = (Raise e, w) /\
  isfile self filepath w = (Raise e, w) /\
  get self filepath w = (Raise e, w) /\
  get_local_path_enter self mktemp filepath w = (Raise e, w) /\
  with_get_local_path self mktemp filepath block w = (Raise e, w) /\
  (forall list_dir list_file suffix recursive,
      list_dir = false \/ suffix = None ->
      suffix <> Some SuffixOther ->
      list_dir_or_file self filepath list_dir list_file suffix recursive w = (Raise e, w)).
Proof.
  intros Hp.
  assert (isfile self filepath w = (Raise e, w)) as Hf.
  { unfold isfile, mbind, M_bind, lift. by rewrite Hp. }
  assert (get_local_path_enter self mktemp filepath w = (Raise e, w)) as He.
  { unfold get_local_path_enter, mbind, M_bind. by rewrite Hf. }
  repeat split; try done.
  - unfold exists_, mbind, M_bind, lift. by rewrite Hp.
  - unfold isdir, mbind, M_bind, lift. by rewrite Hp.
  - unfold get, mbind, M_bind, lift. by rewrite Hp.
  - unfold with_get_local_path, mbind, M_bind. by rewrite He.
  - intros list_dir list_file suffix recursive Hopt Hsuf.
    unfold list_dir_or_file, mbind, M_bind, lift. rewrite Hp.
    destruct Hopt as [-> | ->]; [by destruct suffix as [[]|]|].
    by rewrite andb_false_r.
Qed.

Lemma unparsable_path_stops_every_operation_witness :
  let self := S3.backend "bucket" [["a.txt"]] (fun _ => 0) in
  let e := ValueError "filepath bucket/a.txt is not a valid s3 path." in
  exists_ self "bucket/a.txt" world0 = (Raise e, world0) /\
  isdir self "bucket/a.txt" world0 = (Raise e, world0) /\
  isfile self "bucket/a.txt" world0 = (Raise e, world0) /\
  get self "bucket/a.txt" world0 = (Raise e, world0) /\
  get_local_path_enter self (fun _ => "/tmp/tmp0") "bucket/a.txt" world0 = (Raise e, world0) /\
  with_get_local_path self (fun _ => "/tmp/tmp0") "bucket/a.txt"
    (fun _ => mret tt) world0 = (Raise e, world0) /\
  (forall list_dir list_file suffix recursive,
      list_dir = false \/ suffix = None ->
      suffix <> Some SuffixOther ->
      list_dir_or_file self "bucket/a.txt" list_dir list_file suffix recursive world0
      = (Raise e, world0)).
Proof.
  intros self e.
  apply (unparsable_path_stops_every_operation (A:=unit) self (fun _ => "/tmp/tmp0")
           "bucket/a.txt" e (fun _ => mret tt) world0).
  reflexivity.
Defined.

(** ** Local staging, beyond the directory case *)

Lemma isfile_cases self filepath bucket key w :
  _parse_path (path_mapping self) filepath = Ok (bucket, key) ->
  isfile self filepath w
  = (match head_bucket (_client self) bucket with
     | Ok _ => Ok (negb (Py.endswith key "/") && negb (String.eqb key ""))
     | Raise e => Raise (bucket_probe_error bucket e)
     end,
     {| requests := requests w ++ [HeadBucket bucket];
        files := files w; tempfiles := tempfiles w |}).
Proof.
  intros Hp. unfold isfile, mbind, M_bind, lift at 1. rewrite Hp, _check_bucket_cases.
  destruct (head_bucket (_client self) bucket) as [[]|e]; [|done].
  cbn [andb]. by destruct (Py.endswith key "/"), (String.eqb key "").
Qed.

Lemma get_result_cases self filepath bucket key w :
  _parse_path (path_mapping self) filepath = Ok (bucket, key) ->
  get self filepath w
  = (get_result self bucket key,
     {| requests := requests w ++ get_requests self bucket key;
        files := files w; tempfiles := tempfiles w |}).
Proof.
  intros Hp. rewrite (get_cases _ _ _ _ _ Hp). unfold get_result, get_requests.
  by destruct (head_object (_client self) bucket key).
Qed.

Lemma get_local_path_enter_cases self mktemp filepath bucket key w :
  _parse_path (path_mapping self) filepath = Ok (bucket, key) ->
  head_bucket (_client self) bucket = Ok tt ->
  Py.endswith key "/" = false ->
  key <> EmptyString ->
  get_local_path_enter self mktemp filepath w
  = match get_result self bucket key with
    | Ok body =>
        (Ok (mktemp (files w)),
         {| requests := requests w ++ HeadBucket bucket :: get_requests self bucket key;
            files := <[mktemp (files w) := body]> (files w);
            tempfiles := tempfiles w ++ [mktemp (files w)] |})
    | Raise e =>
        (Raise e,
         {| requests := requests w ++ HeadBucket bucket :: get_requests self bucket key;
            files := delete (mktemp (files w)) (files w);
            tempfiles := tempfiles w ++ [mktemp (files w)] |})
    end.
Proof.
  intros Hp Hb Hslash Hne. unfold get_local_path_enter.
  unfold mbind at 1, M_bind at 1. rewrite (isfile_cases _ _ _ _ _ Hp), Hb, Hslash.
  apply String.eqb_neq in Hne. rewrite Hne. cbn [negb andb].
  unfold mbind at 1, M_bind at 1, NamedTemporaryFile. cbn [requests files tempfiles].
  unfold mbind, M_bind. rewrite (get_result_cases _ _ _ _ _ Hp).
  cbn [requests files tempfiles]. rewrite <- app_assoc. cbn [app].
  destruct (get_result self bucket key) as [body|e].
  - unfold write_close. cbn [requests files tempfiles]. by rewrite insert_insert_eq.
  - unfold try_finally, raise, os_remove. cbn [requests files tempfiles].
    by rewrite lookup_insert_eq, delete_insert_eq.
Qed.

(** X9: staging a file whose bucket probe and download succeed hands the
    block the name [tempfile] picked, with the object's content written
    under that name; the requests were the bucket probe, the object probe
    and the download, in that order. *)
Theorem staged_file_holds_the_object self mktemp filepath bucket key body w :
  _parse_path (path_mapping self) filepath = Ok (bucket, key) ->
  head_bucket (_client self) bucket = Ok tt ->
  Py.endswith key "/" = false ->
  key <> EmptyString ->
  head_object (_client self) bucket key = Ok tt ->
  download_fileobj (_client self) bucket key = Ok body ->
  exists w1,
    get_local_path_enter self mktemp filepath w = (Ok (mktemp (files w)), w1) /\
    files w1 !! mktemp (files w) = Some body /\
    (forall p, p <> mktemp (files w) -> files w1 !! p = files w !! p) /\
    requests w1 = requests w ++ [HeadBucket bucket; HeadObject bucket key;
                                 DownloadFileobj bucket key] /\
    tempfiles w1 = tempfiles w ++ [mktemp (files w)].
Proof.
  intros Hp Hb Hslash Hne Ho Hd.
  rewrite (get_local_path_enter_cases _ _ _ _ _ _ Hp Hb Hslash Hne).
  unfold get_result, get_requests. rewrite Ho, Hd.
  eexists. split; [done|]. cbn [requests files tempfiles].
  split; [apply lookup_insert_eq|]. split; [|done].
  intros p Hne'. by rewrite lookup_insert_ne.
Qed.

(** X10: when the bucket probe succeeds but the object cannot be fetched,
    staging raises the error of [get], and the temporary file it had
    created is removed again: no file is left under the name picked. *)
Theorem failed_download_leaves_no_file self mktemp filepath bucket key e w :
  _parse_path (path_mapping self) filepath = Ok (bucket, key) ->
  head_bucket (_client self) bucket = Ok tt ->
  Py.endswith key "/" = false ->
  key <> EmptyString ->
  get_result self bucket key = Raise e ->
  exists w1,
    get_local_path_enter self mktemp filepath w = (Raise e, w1) /\
    (forall A (block : string -> M A),
        with_get_local_path self mktemp filepath block w = (Raise e, w1)) /\
    files w1 = delete (mktemp (files w)) (files w) /\
    files w1 !! mktemp (files w) = None /\
    tempfiles w1 = tempfiles w ++ [mktemp (files w)].
Proof.
  intros Hp Hb Hslash Hne Hg.
  pose proof (get_local_path_enter_cases _ mktemp _ _ _ w Hp Hb Hslash Hne) as He.
  rewrite Hg in He. eexists. split; [exact He|]. split.
  - intros A block. unfold with_get_local_path, mbind, M_bind. by rewrite He.
  - cbn [files tempfiles]. split; [done|]. split; [apply lookup_delete_eq|done].
Qed.

Lemma staged_file_holds_the_object_witness :
  let self := {| path_mapping := None;
                 _client := S3.store "bucket" [["a.txt"]] (fun _ => "data") (fun _ => 0) |} in
  exists w1,
    get_local_path_enter self (fun _ => "/tmp/tmp0") "s3://bucket/a.txt" world0
    = (Ok "/tmp/tmp0", w1) /\
    files w1 !! "/tmp/tmp0" = Some "data" /\
    (forall p, p <> "/tmp/tmp0" -> files w1 !! p = files world0 !! p) /\
    requests w1 = requests world0 ++ [HeadBucket "bucket"; HeadObject "bucket" "a.txt";
                                      DownloadFileobj "bucket" "a.txt"] /\
    tempfiles w1 = tempfiles world0 ++ ["/tmp/tmp0"].
Proof.
  intros self.
  apply (staged_file_holds_the_object self (fun _ => "/tmp/tmp0") "s3://bucket/a.txt"
           "bucket" "a.txt" "data" world0); (reflexivity || discriminate).
Defined.

Lemma failed_download_leaves_no_file_witness :
  let self := S3.backend "bucket" [["a.txt"]] (fun _ => 0) in
  let e := TypeError missing_operation_name in
  exists w1,
    get_local_path_enter self (fun _ => "/tmp/tmp0") "s3://bucket/missing.txt" world0
    = (Raise e, w1) /\
    (forall A (block : string -> M A),
        with_get_local_path self (fun _ => "/tmp/tmp0") "s3://bucket/missing.txt" block world0
        = (Raise e, w1)) /\
    files w1 = delete "/tmp/tmp0" (files world0) /\
    files w1 !! "/tmp/tmp0" = None /\
    tempfiles w1 = tempfiles world0 ++ ["/tmp/tmp0"].
Proof.
  intros self e.
  apply (failed_download_leaves_no_file self (fun _ => "/tmp/tmp0")
           "s3://bucket/missing.txt" "bucket" "missing.txt" e world0);
    (reflexivity || discriminate).
Defined.

(** X11: when staging succeeds under a name that was free, and the block
    leaves the local files as it found them, the [with] statement ends
    with the outcome of the block and the local files are again what they
    were before it. *)
Theorem staging_restores_the_files
    {A} self mktemp filepath bucket key body (block : string -> M A) w outcome w2 :
  _parse_path (path_mapping self) filepath = Ok (bucket, key) ->
  head_bucket (_client self) bucket = Ok tt ->
  Py.endswith key "/" = false ->
  key <> EmptyString ->
  get_result self bucket key = Ok body ->
  files w !! mktemp (files w) = None ->
  block (mktemp (files w))
    {| requests := requests w ++ HeadBucket bucket :: get_requests self bucket key;
       files := <[mktemp (files w) := body]> (files w);
       tempfiles := tempfiles w ++ [mktemp (files w)] |} = (outcome, w2) ->
  files w2 = <[mktemp (files w) := body]> (files w) ->
  with_get_local_path self mktemp filepath block w
  = (outcome, {| requests := requests w2; files := files w; tempfiles := tempfiles w2 |}).
Proof.
  intros Hp Hb Hslash Hne Hg Hfresh Hblock Hfiles.
  unfold with_get_local_path, mbind, M_bind.
  rewrite (get_local_path_enter_cases _ _ _ _ _ _ Hp Hb Hslash Hne), Hg, Hblock.
  unfold get_local_path_exit, try_finally, lift, os_remove.
  rewrite Hfiles, lookup_insert_eq, delete_insert_id by done. done.
Qed.

Lemma staging_restores_the_files_witness :
  let self := {| path_mapping := None;
                 _client := S3.store "bucket" [["a.txt"]] (fun _ => "data") (fun _ => 0) |} in
  let w2 := {| requests := [HeadBucket "bucket"; HeadObject "bucket" "a.txt";
                            DownloadFileobj "bucket" "a.txt"];
               files := <["/tmp/tmp0" := "data"]> ∅;
               tempfiles := ["/tmp/tmp0"] |} in
  with_get_local_path self (fun _ => "/tmp/tmp0") "s3://bucket/a.txt"
    (fun name => mret name) world0
  = (Ok "/tmp/tmp0",
     {| requests := requests w2; files := files world0; tempfiles := tempfiles w2 |}).
Proof.
  intros self w2.
  apply (staging_restores_the_files self (fun _ => "/tmp/tmp0") "s3://bucket/a.txt"
           "bucket" "a.txt" "data" (fun name => mret name) world0 (Ok "/tmp/tmp0") w2);
    (reflexivity || discriminate).
Defined.

(** X12: once the scope is entered, what the [with] statement gives is
    decided by whether the staged file is still there when the block
    ends: if it is, the file is removed and the outcome of the block is
    passed on unchanged; if the block removed it, [FileNotFoundError]
    takes the place of the outcome, even of a value. *)
Theorem staging_exit_outcome
    {A} self mktemp filepath (block : string -> M A) w name w1 outcome w2 :
  get_local_path_enter self mktemp filepath w = (Ok name, w1) ->
  block name w1 = (outcome, w2) ->
  with_get_local_path self mktemp filepath block w
  = match files w2 !! name with
    | Some _ =>
        (outcome, {| requests := requests w2; files := delete name (files w2);
                     tempfiles := tempfiles w2 |})
    | None => (Raise (FileNotFoundError name), w2)
    end.
Proof.
  intros He Hb. unfold with_get_local_path, mbind, M_bind. rewrite He, Hb.
  unfold get_local_path_exit, try_finally, lift, os_remove.
  by destruct (files w2 !! name).
Qed.

Lemma staging_exit_outcome_witness :
  let self := {| path_mapping := None;
                 _client := S3.store "bucket" [["a.txt"]] (fun _ => "data") (fun _ => 0) |} in
  let w1 := {| requests := [HeadBucket "bucket"; HeadObject "bucket" "a.txt";
                            DownloadFileobj "bucket" "a.txt"];
               files := {["/tmp/tmp0" := "data"]};
               tempfiles := ["/tmp/tmp0"] |} in
  let w2 := {| requests := requests w1; files := ∅; tempfiles := tempfiles w1 |} in
  with_get_local_path self (fun _ => "/tmp/tmp0") "s3://bucket/a.txt"
    (fun name => os_remove name) world0
  = match files w2 !! "/tmp/tmp0" with
    | Some _ =>
        (Ok tt, {| requests := requests w2; files := delete "/tmp/tmp0" (files w2);
                   tempfiles := tempfiles w2 |})
    | None => (Raise (FileNotFoundError "/tmp/tmp0"), w2)
    end.
Proof.
  intros self w1 w2.
  apply (staging_exit_outcome self (fun _ => "/tmp/tmp0") "s3://bucket/a.txt"
           (fun name => os_remove name) world0 "/tmp/tmp0" w1 (Ok tt) w2);
    vm_compute; reflexivity.
Defined.

(** ** The listing on any store *)

Section ListingAnyStore.

Variable self : AWSBackend.
Variables bucket root : string.
Variables list_dir list_file : bool.
Variable suffix : option suffix_arg.
Variable recursive : bool.

Local Abbreviation entries_of keys :=
  (process_contents root list_dir list_file suffix recursive keys ∅).1.

Lemma generator_for_out fuel w out w' :
  generator_for self bucket root list_dir list_file suffix recursive fuel w
  = Some (out, w') ->
  exists keys,
    visited_keys (paginate (_client self) bucket root) fuel None = Some keys /\
    out = entries_of keys.
Proof.
  unfold generator_for.
  pose proof (_list_dir_or_file_eq self bucket root root list_dir list_file suffix
                recursive fuel None ∅ w) as H.
  destruct (visited_keys _ fuel None) as [keys|].
  - destruct H as [w0 ->]. intros [= <- <-]. by exists keys.
  - by rewrite H.
Qed.

Lemma entries_of_spec keys e :
  e ∈ entries_of keys <->
  (exists d key, e = DirEntry d /\ key ∈ keys /\
                 d ∈ implied_dirs root list_dir recursive key) \/
  (exists key, key ∈ keys /\ e ∈ own_file root list_file suffix recursive key).
Proof.
  destruct (process_contents root list_dir list_file suffix recursive keys ∅)
    as [out d] eqn:E.
  destruct (on_keys_spec _ _ _ _ _ _ _ _ _ E) as (_ & Hin & _).
  cbn [fst]. rewrite Hin. setoid_rewrite list_elem_of_bind. split.
  - intros [(dir & -> & (k & Hd & Hk) & _)|?]; [left|by right]. by exists dir, k.
  - intros [(dir & k & -> & Hk & Hd)|?]; [left|by right].
    exists dir. split; [done|]. split; [by exists k|set_solver].
Qed.

End ListingAnyStore.

(** X13: calling [list_dir_or_file] touches nothing, whatever the
    arguments: it raises or hands back a generator, and the world is as
    before, so no request is sent until the generator is consumed. *)
Theorem list_dir_or_file_is_lazy self dir_path list_dir list_file suffix recursive w :
  (list_dir_or_file self dir_path list_dir list_file suffix recursive w).2 = w.
Proof.
  unfold list_dir_or_file, mbind, M_bind, lift, raise.
  destruct (list_dir && _); [done|].
  destruct (match suffix with Some SuffixOther => true | _ => false end); [done|].
  by destruct (_parse_path (path_mapping self) dir_path) as [[]|].
Qed.

Lemma _list_dir_or_file_requests self bucket root dir_path list_dir list_file suffix
    recursive fuel : forall start_token dup w out dup' w',
  _list_dir_or_file self bucket root dir_path list_dir list_file suffix recursive
    fuel start_token dup w = Some (out, dup', w') ->
  files w' = files w /\ tempfiles w' = tempfiles w /\
  exists tokens,
    requests w'
    = requests w ++ ListObjectsV2 bucket dir_path start_token
                    :: ((fun t => ListObjectsV2 bucket dir_path (Some t)) <$> tokens).
Proof.
  induction fuel as [|fuel IH]; intros start_token dup w out dup' w'; [done|].
  cbn [_list_dir_or_file].
  destruct (process_responses _ _ _ _ _ _ _ _) as [[o nt] d].
  destruct nt as [t|].
  - destruct (_list_dir_or_file _ _ _ _ _ _ _ _ fuel (Some t) d _)
      as [[[o' d'] w'']|] eqn:E; [|done].
    intros [= <- <- <-]. apply IH in E as (Hf & Ht & tokens & Hr).
    cbn [issue snd files tempfiles requests] in *.
    split; [done|]. split; [done|]. exists (t :: tokens).
    by rewrite Hr, <- app_assoc.
  - intros [= <- <- <-]. cbn [issue snd files tempfiles requests].
    split; [done|]. split; [done|]. by exists [].
Qed.

(** X14: consuming the generator sends list requests only, all for the
    parsed bucket under the root prefix, the first without a token and
    every later one with a token: the bucket is never probed, no object
    is read, and the local files are not touched. *)
Theorem listing_sends_list_requests_only
    self dir_path list_dir list_file suffix recursive w g w1 fuel out w2 :
  list_dir_or_file self dir_path list_dir list_file suffix recursive w = (Ok g, w1) ->
  g fuel w1 = Some (out, w2) ->
  exists bucket obj_name tokens,
    _parse_path (path_mapping self) dir_path = Ok (bucket, obj_name) /\
    requests w2
    = requests w ++ ListObjectsV2 bucket (root_of obj_name) None
                    :: ((fun t => ListObjectsV2 bucket (root_of obj_name) (Some t))
                          <$> tokens) /\
    files w2 = files w /\ tempfiles w2 = tempfiles w.
Proof.
  intros (bucket & obj_name & Hp & -> & ->)%list_dir_or_file_inv.
  unfold generator_for.
  destruct (_list_dir_or_file _ _ _ _ _ _ _ _ _ _ _ _) as [[[o d] w']|] eqn:E; [|done].
  intros [= <- <-]. apply _list_dir_or_file_requests in E as (Hf & Ht & tokens & Hr).
  by exists bucket, obj_name, tokens.
Qed.

Lemma listing_sends_list_requests_only_witness :
  exists bucket obj_name tokens,
    _parse_path None "s3://bucket/d" = Ok (bucket, obj_name) /\
    [ListObjectsV2 "bucket" "d/" None; ListObjectsV2 "bucket" "d/" (Some 1)]
    = requests world0 ++ ListObjectsV2 bucket (root_of obj_name) None
                         :: ((fun t => ListObjectsV2 bucket (root_of obj_name) (Some t))
                               <$> tokens) /\
    (∅ : gmap string string) = files world0 /\ [] = tempfiles world0.
Proof.
  apply (listing_sends_list_requests_only
           (S3.backend "bucket" [["d/x.txt"]; ["d/y/z.txt"]] (fun _ => 0))
           "s3://bucket/d" true true None false world0
           (generator_for (S3.backend "bucket" [["d/x.txt"]; ["d/y/z.txt"]] (fun _ => 0))
              "bucket" "d/" true true None false)
           world0 3 [FileEntry "x.txt"; DirEntry "y"]
           {| requests := [ListObjectsV2 "bucket" "d/" None;
                           ListObjectsV2 "bucket" "d/" (Some 1)];
              files := ∅; tempfiles := [] |}).
  - reflexivity.
  - vm_compute. reflexivity.
Defined.

(** ** Segments *)

Lemma split_cons c s :
  Py.split Py.slash (String c s)
  = if Ascii.eqb c Py.slash then EmptyString :: Py.split Py.slash s
    else match Py.split Py.slash s with
         | h :: t => String c h :: t
         | [] => [String c EmptyString]
         end.
Proof. reflexivity. Qed.

Lemma split_clean s : Forall (fun x => has_char Py.slash x = false) (Py.split Py.slash s).
Proof.
  induction s as [|c s IH]; [by repeat constructor|]. rewrite split_cons.
  destruct (Ascii.eqb c Py.slash) eqn:E; [by constructor|].
  destruct (Py.split Py.slash s) as [|h t]; [by repeat constructor; cbn; rewrite E|].
  apply Forall_cons in IH as [Hh Ht]. constructor; [|done]. cbn [has_char]. by rewrite E, Hh.
Qed.

Lemma split_whole x : has_char Py.slash x = false -> Py.split Py.slash x = [x].
Proof.
  induction x as [|c x IH]; [done|]. cbn [has_char].
  intros [Hc Hx]%orb_false_elim. by rewrite split_cons, Hc, IH.
Qed.

Lemma split_joined x t :
  has_char Py.slash x = false ->
  Py.split Py.slash (x +:+ "/" +:+ t) = x :: Py.split Py.slash t.
Proof.
  induction x as [|c x IH]; [done|]. cbn [has_char].
  intros [Hc Hx]%orb_false_elim.
  change (String c x +:+ "/" +:+ t) with (String c (x +:+ "/" +:+ t)).
  by rewrite split_cons, Hc, IH.
Qed.

Lemma join_cons x y l : Py.join "/" (x :: y :: l) = x +:+ "/" +:+ Py.join "/" (y :: l).
Proof. reflexivity. Qed.

(** Splitting what [join] made of slash-free pieces gives the pieces. *)
Lemma split_join l :
  l <> [] -> Forall (fun x => has_char Py.slash x = false) l ->
  Py.split Py.slash (Py.join "/" l) = l.
Proof.
  induction l as [|x l IH]; [done|]. intros _ [Hx Hl]%Forall_cons.
  destruct l as [|y l]; [by apply split_whole|].
  rewrite join_cons, split_joined by done. f_equal. by apply IH.
Qed.

Lemma sparse_path_clean root path :
  Forall (fun x => x <> EmptyString /\ has_char Py.slash x = false)
         (sparse_path_of root path).
Proof.
  unfold sparse_path_of. apply Forall_forall. intros x [Hx Hin]%list_elem_of_filter.
  split; [done|]. by eapply (proj1 (Forall_forall _ _) (split_clean _)).
Qed.

Section Directories.

Variable root : string.
Variables list_dir recursive : bool.

Lemma implied_dirs_elem key d :
  d ∈ implied_dirs root list_dir recursive key <->
  list_dir = true /\
  exists lvl,
    lvl + 1 < length (sparse_path_of root (Py.slice_from (String.length root) key)) /\
    (recursive = false -> lvl = 0) /\
    d = Py.join "/" (take (lvl + 1)
                       (sparse_path_of root (Py.slice_from (String.length root) key))).
Proof.
  unfold implied_dirs. cbv zeta.
  set (sp := sparse_path_of root (Py.slice_from (String.length root) key)).
  destruct list_dir; cbn [negb orb]; [|split; [by intros ?%elem_of_nil|by intros [? _]]].
  destruct (length sp =? 0) eqn:E0.
  { apply Nat.eqb_eq in E0. split; [by intros ?%elem_of_nil|].
    intros (_ & lvl & ? & _). lia. }
  apply Nat.eqb_neq in E0.
  destruct (1 <? length sp) eqn:E1; destruct recursive; cbn [negb andb].
  - apply Nat.ltb_lt in E1. rewrite list_elem_of_fmap. split.
    + intros (lvl & -> & Hl%elem_of_seq). split; [done|]. exists lvl.
      split; [lia|]. by split.
    + intros (_ & lvl & Hl & _ & ->). exists lvl. split; [done|]. apply elem_of_seq. lia.
  - apply Nat.ltb_lt in E1. rewrite list_elem_of_singleton.
    destruct sp as [|x sp']; [done|]. cbn [lookup list_lookup default from_option id take].
    split.
    + intros ->. split; [done|]. exists 0. split; [done|]. by split.
    + intros (_ & lvl & _ & Hl & ->). by rewrite (Hl eq_refl).
  - apply Nat.ltb_ge in E1. replace (length sp - 1) with 0 by lia.
    split; [by intros ?%elem_of_nil|]. intros (_ & lvl & ? & _). lia.
  - apply Nat.ltb_ge in E1. replace (length sp - 1) with 0 by lia.
    split; [by intros ?%elem_of_nil|]. intros (_ & lvl & ? & _). lia.
Qed.

End Directories.

Lemma own_file_elem root list_file suffix recursive key e :
  e ∈ own_file root list_file suffix recursive key ->
  list_file = true /\
  e = FileEntry (Py.slice_from (String.length root) key) /\
  match suffix with
  | None => True
  | Some suf => endswith_suffix (Py.slice_from (String.length root) key) suf = true
  end.
Proof.
  unfold own_file. cbv zeta.
  destruct (_ || _); [by intros ?%elem_of_nil|].
  destruct list_file; cbn [andb]; [|by intros ?%elem_of_nil].
  destruct suffix as [suf|].
  - destruct (endswith_suffix _ suf) eqn:E; [|by intros ?%elem_of_nil].
    by intros ->%list_elem_of_singleton.
  - by intros ->%list_elem_of_singleton.
Qed.

Lemma list_dir_with_suffix_rejected_early
    self dir_path list_file (suf : suffix_arg) recursive w :
  list_dir_or_file self dir_path true list_file (Some suf) recursive w
  = (Raise (TypeError "`list_dir` should be False when `suffix` is not None"), w).
Proof. reflexivity. Qed.

(** X15: with [list_dir] and [list_file] both off the generator yields
    nothing, on any store and however the store pages its keys. *)
Theorem listing_with_both_flags_off
    self dir_path suffix recursive w g w1 fuel out w2 :
  list_dir_or_file self dir_path false false suffix recursive w = (Ok g, w1) ->
  g fuel w1 = Some (out, w2) ->
  out = [].
Proof.
  intros (bucket & obj_name & _ & -> & ->)%list_dir_or_file_inv
         (keys & _ & ->)%generator_for_out.
  apply elem_of_nil_inv. intros e [(d & k & _ & _ & Hd)|(k & _ & Hf)]%entries_of_spec.
  - by apply implied_dirs_elem in Hd as [? _].
  - by apply own_file_elem in Hf as [? _].
Qed.

Lemma listing_with_both_flags_off_witness :
  exists out w2,
    generator_for (S3.backend "bucket" [["d/x.txt"]; ["d/y/z.txt"]] (fun _ => 0))
      "bucket" "d/" false false None true 3 world0 = Some (out, w2) /\
    out = [].
Proof.
  exists [],
    {| requests := [ListObjectsV2 "bucket" "d/" None; ListObjectsV2 "bucket" "d/" (Some 1)]; files := ∅; tempfiles := [] |}.
  split; [vm_compute; reflexivity|].
  eapply (listing_with_both_flags_off
            (S3.backend "bucket" [["d/x.txt"]; ["d/y/z.txt"]] (fun _ => 0))
            "s3://bucket/d" None true world0 _ world0 3
            []
            {| requests := [ListObjectsV2 "bucket" "d/" None; ListObjectsV2 "bucket" "d/" (Some 1)]; files := ∅; tempfiles := [] |}).
  - reflexivity.
  - vm_compute. reflexivity.
Defined.

(** X16: with [list_file] off every string the caller receives ends in a
    slash: only directories are yielded. *)
Theorem listing_without_files_yields_directories
    self dir_path list_dir suffix recursive w g w1 fuel out w2 :
  list_dir_or_file self dir_path list_dir false suffix recursive w = (Ok g, w1) ->
  g fuel w1 = Some (out, w2) ->
  forall s, s ∈ render <$> out -> Py.endswith s "/" = true.
Proof.
  intros (bucket & obj_name & _ & -> & ->)%list_dir_or_file_inv
         (keys & _ & ->)%generator_for_out s (e & -> & He)%list_elem_of_fmap.
  apply entries_of_spec in He as [(d & k & -> & _)|(k & _ & Hf)].
  - apply endswith_append.
  - by apply own_file_elem in Hf as [? _].
Qed.

Lemma listing_without_files_yields_directories_witness :
  exists out w2,
    generator_for (S3.backend "bucket" [["d/x.txt"]; ["d/y/z.txt"]] (fun _ => 0))
      "bucket" "d/" true false None true 3 world0 = Some (out, w2) /\
    forall s, s ∈ render <$> out -> Py.endswith s "/" = true.
Proof.
  exists [DirEntry "y"],
    {| requests := [ListObjectsV2 "bucket" "d/" None; ListObjectsV2 "bucket" "d/" (Some 1)]; files := ∅; tempfiles := [] |}.
  split; [vm_compute; reflexivity|].
  eapply (listing_without_files_yields_directories
            (S3.backend "bucket" [["d/x.txt"]; ["d/y/z.txt"]] (fun _ => 0))
            "s3://bucket/d" true None true world0 _ world0 3
            [DirEntry "y"]
            {| requests := [ListObjectsV2 "bucket" "d/" None; ListObjectsV2 "bucket" "d/" (Some 1)]; files := ∅; tempfiles := [] |}).
  - reflexivity.
  - vm_compute. reflexivity.
Defined.

(** X17: when a suffix is given, every string the caller receives is the
    path of a file and ends with the suffix, or with one of the suffixes
    of the tuple. *)
Theorem listing_with_suffix_yields_matching_files
    self dir_path list_dir list_file suf recursive w g w1 fuel out w2 :
  list_dir_or_file self dir_path list_dir list_file (Some suf) recursive w = (Ok g, w1) ->
  g fuel w1 = Some (out, w2) ->
  list_dir = false /\
  forall e, e ∈ out ->
    exists path, e = FileEntry path /\ endswith_suffix path suf = true.
Proof.
  intros Hl. assert (list_dir = false) as ->.
  { destruct list_dir; [|done]. by rewrite list_dir_with_suffix_rejected_early in Hl. }
  apply list_dir_or_file_inv in Hl as (bucket & obj_name & _ & -> & ->).
  intros (keys & _ & ->)%generator_for_out. split; [done|].
  intros e [(d & k & _ & _ & Hd)|(k & _ & Hf)]%entries_of_spec.
  - by apply implied_dirs_elem in Hd as [? _].
  - apply own_file_elem in Hf as (_ & -> & Hs). eauto.
Qed.

Lemma listing_with_suffix_yields_matching_files_witness :
  exists out w2,
    generator_for (S3.backend "bucket" [["a.txt"; "a.csv"]] (fun _ => 0))
      "bucket" "" false true (Some (SuffixStr ".txt")) false 2 world0 = Some (out, w2) /\
    false = false /\
    forall e, e ∈ out ->
      exists path, e = FileEntry path /\ endswith_suffix path (SuffixStr ".txt") = true.
Proof.
  exists [FileEntry "a.txt"],
    {| requests := [ListObjectsV2 "bucket" "" None]; files := ∅; tempfiles := [] |}.
  split; [vm_compute; reflexivity|].
  eapply (listing_with_suffix_yields_matching_files
            (S3.backend "bucket" [["a.txt"; "a.csv"]] (fun _ => 0))
            "s3://bucket" false true (SuffixStr ".txt") false world0 _ world0 2
            [FileEntry "a.txt"]
            {| requests := [ListObjectsV2 "bucket" "" None]; files := ∅; tempfiles := [] |}).
  - reflexivity.
  - vm_compute. reflexivity.
Defined.

(** Every key a traversal reads was delivered in the ['Contents'] of a
    page of one of its paginators. *)
Lemma visited_keys_delivered pages_for fuel : forall start_token keys k,
  visited_keys pages_for fuel start_token = Some keys ->
  k ∈ keys ->
  exists t response contents,
    response ∈ pages_for t /\ Contents response = Some contents /\ k ∈ contents.
Proof.
  induction fuel as [|fuel IH]; intros t keys k; cbn [visited_keys]; [done|].
  assert (forall k0, k0 ∈ response_keys (pages_for t) ->
                     exists t0 response contents,
                       response ∈ pages_for t0 /\ Contents response = Some contents /\
                       k0 ∈ contents) as Hr.
  { intros k0 (response & Hk & Hr)%list_elem_of_bind. exists t, response.
    destruct (Contents response) as [c|] eqn:Ec; [|by apply elem_of_nil in Hk].
    destruct (_ =? _)%Z; [|by apply elem_of_nil in Hk]. by exists c. }
  destruct (last_token _ None) as [t'|].
  - destruct (visited_keys pages_for fuel (Some t')) as [keys'|] eqn:Ev; [|done].
    intros [= <-] [Hk|Hk]%elem_of_app; [by apply Hr|]. by apply (IH _ _ _ Ev).
  - intros [= <-]. apply Hr.
Qed.

Lemma responses_from_contents pages : forall i response contents,
  response ∈ S3.responses_from i pages ->
  Contents response = Some contents ->
  contents ∈ pages.
Proof.
  induction pages as [|keys rest IH]; intros i response contents; cbn [S3.responses_from].
  - by intros ?%elem_of_nil.
  - intros [->|Hr]%elem_of_cons Hc.
    + cbn [Contents] in Hc. destruct keys; [done|]. injection Hc as <-.
      apply list_elem_of_here.
    + apply list_elem_of_further. by apply (IH _ _ _ Hr).
Qed.

(** The paged store delivers keys of its pages only. *)
Lemma store_delivers_its_keys name pages body chunk b prefix t response contents k :
  response ∈ paginate (S3.store name pages body chunk) b prefix t ->
  Contents response = Some contents ->
  k ∈ contents ->
  k ∈ mjoin pages.
Proof.
  cbn [S3.store paginate]. destruct (String.eqb b name); [|by intros ?%elem_of_nil].
  unfold S3.paginate_pages. intros Hr%subseteq_take%subseteq_drop Hc Hk.
  apply (responses_from_contents _ _ _ _ Hr) in Hc.
  apply (elem_of_filtered_pages (fun k => Is_true (Py.startswith k prefix)) pages k).
  apply list_elem_of_join. by exists contents.
Qed.

Section SlashStrings.

Variable self : AWSBackend.
Variables bucket root : string.
Variables list_dir list_file : bool.
Variable suffix : option suffix_arg.
Variable recursive : bool.

(** The store delivers no key that ends in a slash (no directory marker
    object). *)
Hypothesis no_marker :
  forall b prefix t response contents k,
    response ∈ paginate (_client self) b prefix t ->
    Contents response = Some contents ->
    k ∈ contents ->
    Py.endswith k "/" = false.

(** Then the strings ending in a slash that the caller receives are the
    ones the two [yield ... + '/'] statements produce. *)
Lemma slash_strings_are_dirs fuel w out w' s :
  generator_for self bucket root list_dir list_file suffix recursive fuel w
  = Some (out, w') ->
  s ∈ render <$> out ->
  Py.endswith s "/" = true ->
  exists d, s = d +:+ "/" /\ DirEntry d ∈ out.
Proof.
  intros (keys & Hv & ->)%generator_for_out (e & -> & He)%list_elem_of_fmap Hs.
  destruct e as [d|path]; [by exists d|].
  apply entries_of_spec in He as [(d & k & ? & _)|(k & Hk & Hf)]; [done|].
  apply own_file_elem in Hf as (_ & [= ->] & _). cbn [render] in Hs.
  apply endswith_slice_from in Hs.
  destruct (visited_keys_delivered _ _ _ _ _ Hv Hk) as (t & response & contents & Hr & Hc & Hkc).
  by rewrite (no_marker _ _ _ _ _ _ Hr Hc Hkc) in Hs.
Qed.

End SlashStrings.

(** What the directory branch yields when the listing is not recursive:
    one segment. *)
Lemma one_level_dir_is_a_segment self bucket root list_dir list_file suffix fuel w out w' d :
  generator_for self bucket root list_dir list_file suffix false fuel w = Some (out, w') ->
  DirEntry d ∈ out ->
  d <> EmptyString /\ has_char Py.slash d = false.
Proof.
  intros (keys & _ & ->)%generator_for_out
         [(d' & k & [= <-] & _ & Hd)|(k & _ & Hf)]%entries_of_spec.
  - apply implied_dirs_elem in Hd as (_ & lvl & Hl & H0 & ->). rewrite (H0 eq_refl) in *.
    pose proof (sparse_path_clean root (Py.slice_from (String.length root) k)) as Hc.
    destruct (sparse_path_of _ _) as [|x sp]; [cbn in Hl; lia|].
    by apply Forall_cons in Hc as [? _].
  - by apply own_file_elem in Hf as (_ & ? & _).
Qed.

(** What the directory branch yields is closed under ancestors. *)
Lemma dir_ancestors_are_yielded
    self bucket root list_dir list_file suffix recursive fuel w out w' d m :
  generator_for self bucket root list_dir list_file suffix recursive fuel w
  = Some (out, w') ->
  DirEntry d ∈ out ->
  m < length (Py.split Py.slash d) ->
  DirEntry (Py.join "/" (take (S m) (Py.split Py.slash d))) ∈ out.
Proof.
  intros (keys & _ & ->)%generator_for_out
         [(d' & k & [= <-] & Hk & Hd)|(k & _ & Hf)]%entries_of_spec Hm;
    [|by apply own_file_elem in Hf as (_ & ? & _)].
  apply implied_dirs_elem in Hd as (Hld & lvl & Hl & H0 & ->).
  set (sp := sparse_path_of root (Py.slice_from (String.length root) k)) in *.
  assert (Forall (fun x => has_char Py.slash x = false) sp) as Hc.
  { eapply Forall_impl; [apply sparse_path_clean|]. by intros x [_ ?]. }
  assert (Py.split Py.slash (Py.join "/" (take (lvl + 1) sp)) = take (lvl + 1) sp) as Hsj.
  { apply split_join; [|by apply Forall_take].
    destruct sp; [cbn in Hl; lia|by rewrite Nat.add_1_r]. }
  rewrite Hsj in Hm |- *. rewrite length_take in Hm. rewrite take_take.
  replace (S m `min` (lvl + 1)) with (m + 1) by lia.
  apply entries_of_spec. left. eexists _, k. split; [done|]. split; [done|].
  apply implied_dirs_elem. split; [done|]. exists m. fold sp.
  split; [lia|]. split; [|done].
  intros Hr. specialize (H0 Hr). lia.
Qed.

(** X18: on a store that delivers no key ending in a slash, a listing
    that is not recursive hands the caller top-level directories only:
    every string it receives that ends in a slash is one non-empty
    segment, with no slash in it, followed by the slash. *)
Theorem one_level_listing_yields_single_segments
    self dir_path list_dir list_file suffix w g w1 fuel out w2 :
  (forall b prefix t response contents k,
      response ∈ paginate (_client self) b prefix t ->
      Contents response = Some contents ->
      k ∈ contents ->
      Py.endswith k "/" = false) ->
  list_dir_or_file self dir_path list_dir list_file suffix false w = (Ok g, w1) ->
  g fuel w1 = Some (out, w2) ->
  forall s,
    s ∈ render <$> out ->
    Py.endswith s "/" = true ->
    exists d, s = d +:+ "/" /\ d <> EmptyString /\ has_char Py.slash d = false.
Proof.
  intros Hn (bucket & obj_name & _ & -> & ->)%list_dir_or_file_inv Hg s Hs Hslash.
  destruct (slash_strings_are_dirs _ _ _ _ _ _ _ Hn _ _ _ _ _ Hg Hs Hslash) as (d & -> & Hd).
  exists d. split; [done|]. by apply (one_level_dir_is_a_segment _ _ _ _ _ _ _ _ _ _ _ Hg).
Qed.

Lemma one_level_listing_yields_single_segments_witness :
  exists out w2,
    generator_for (S3.backend "bucket" [["d/x.txt"]; ["d/y/z/w.txt"]] (fun _ => 0))
      "bucket" "d/" true true None false 3 world0 = Some (out, w2) /\
    render <$> out = ["x.txt"; "y/"] /\
    forall s,
      s ∈ render <$> out ->
      Py.endswith s "/" = true ->
      exists d, s = d +:+ "/" /\ d <> EmptyString /\ has_char Py.slash d = false.
Proof.
  exists [FileEntry "x.txt"; DirEntry "y"],
    {| requests := [ListObjectsV2 "bucket" "d/" None; ListObjectsV2 "bucket" "d/" (Some 1)]; files := ∅; tempfiles := [] |}.
  split; [vm_compute; reflexivity|]. split; [reflexivity|].
  eapply (one_level_listing_yields_single_segments
            (S3.backend "bucket" [["d/x.txt"]; ["d/y/z/w.txt"]] (fun _ => 0))
            "s3://bucket/d" true true None world0 _ world0 3
            [FileEntry "x.txt"; DirEntry "y"]
            {| requests := [ListObjectsV2 "bucket" "d/" None; ListObjectsV2 "bucket" "d/" (Some 1)]; files := ∅; tempfiles := [] |}).
  - intros b prefix t response contents k Hr Hc Hk.
    apply (store_delivers_its_keys "bucket" [["d/x.txt"]; ["d/y/z/w.txt"]]
             (fun _ => EmptyString) (fun _ => 0) b prefix t response contents k Hr Hc) in Hk.
    simpl in Hk.
    by apply elem_of_cons in Hk as [->|[->|[]%elem_of_nil]%elem_of_cons].
  - reflexivity.
  - vm_compute. reflexivity.
Defined.

(** X19: on a store that delivers no key ending in a slash, the
    directories the caller receives are closed under taking ancestors:
    with a string made of a directory name and the slash, it receives the
    string of every directory made of the first segments of that name. *)
Theorem listing_yields_every_ancestor
    self dir_path list_dir list_file suffix recursive w g w1 fuel out w2 :
  (forall b prefix t response contents k,
      response ∈ paginate (_client self) b prefix t ->
      Contents response = Some contents ->
      k ∈ contents ->
      Py.endswith k "/" = false) ->
  list_dir_or_file self dir_path list_dir list_file suffix recursive w = (Ok g, w1) ->
  g fuel w1 = Some (out, w2) ->
  forall d m,
    d +:+ "/" ∈ render <$> out ->
    m < length (Py.split Py.slash d) ->
    Py.join "/" (take (S m) (Py.split Py.slash d)) +:+ "/" ∈ render <$> out.
Proof.
  intros Hn (bucket & obj_name & _ & -> & ->)%list_dir_or_file_inv Hg d m Hs Hm.
  destruct (slash_strings_are_dirs _ _ _ _ _ _ _ Hn _ _ _ _ _ Hg Hs (endswith_append d "/"))
    as (d' & <-%append_slash_inj & Hd).
  apply list_elem_of_fmap.
  exists (DirEntry (Py.join "/" (take (S m) (Py.split Py.slash d)))). split; [done|].
  by apply (dir_ancestors_are_yielded _ _ _ _ _ _ _ _ _ _ _ _ _ Hg).
Qed.

Lemma listing_yields_every_ancestor_witness :
  exists out w2,
    generator_for (S3.backend "bucket" [["d/y/z/w.txt"]] (fun _ => 0))
      "bucket" "d/" true true None true 2 world0 = Some (out, w2) /\
    render <$> out = ["y/"; "y/z/"; "y/z/w.txt"] /\
    forall d m,
      d +:+ "/" ∈ render <$> out ->
      m < length (Py.split Py.slash d) ->
      Py.join "/" (take (S m) (Py.split Py.slash d)) +:+ "/" ∈ render <$> out.
Proof.
  exists [DirEntry "y"; DirEntry "y/z"; FileEntry "y/z/w.txt"],
    {| requests := [ListObjectsV2 "bucket" "d/" None]; files := ∅; tempfiles := [] |}.
  split; [vm_compute; reflexivity|]. split; [reflexivity|].
  eapply (listing_yields_every_ancestor
            (S3.backend "bucket" [["d/y/z/w.txt"]] (fun _ => 0))
            "s3://bucket/d" true true None true world0 _ world0 2
            [DirEntry "y"; DirEntry "y/z"; FileEntry "y/z/w.txt"]
            {| requests := [ListObjectsV2 "bucket" "d/" None]; files := ∅; tempfiles := [] |}).
  - intros b prefix t response contents k Hr Hc Hk.
    apply (store_delivers_its_keys "bucket" [["d/y/z/w.txt"]]
             (fun _ => EmptyString) (fun _ => 0) b prefix t response contents k Hr Hc) in Hk.
    simpl in Hk.
    by apply elem_of_cons in Hk as [->|[]%elem_of_nil].
  - reflexivity.
  - vm_compute. reflexivity.
Defined.

(** ** The listing on a paged store: which keys come out *)

Lemma slice_from_all s : Py.slice_from (String.length s) s = EmptyString.
Proof. by induction s. Qed.

Lemma sparse_path_of_empty root : sparse_path_of root EmptyString = [].
Proof. by destruct root. Qed.

Lemma replace_empty_id s : Py.replace_empty EmptyString s = s.
Proof. induction s as [|c s IH]; [done|]. cbn [Py.replace_empty]. by rewrite IH. Qed.

Lemma sparse_path_of_no_root path :
  sparse_path_of EmptyString path
  = filter (fun item => item ≠ EmptyString) (Py.split Py.slash path).
Proof. unfold sparse_path_of, Py.replace. by rewrite replace_empty_id. Qed.

Lemma own_file_at_root key :
  own_file "" true None true key
  = if length (filter (fun item => item ≠ EmptyString) (Py.split Py.slash key)) =? 0
    then [] else [FileEntry key].
Proof.
  unfold own_file. cbv zeta. cbn [String.length Py.slice_from].
  by rewrite sparse_path_of_no_root, andb_false_r, orb_false_r.
Qed.

(** X20: on a paged store every file the listing yields is a key of the
    listed bucket: the root put back in front of the yielded path gives a
    key the store holds. *)
Theorem listed_files_are_keys
    pm name pages body chunk dir_path list_dir list_file suffix recursive w g w1 fuel :
  list_dir_or_file {| path_mapping := pm; _client := S3.store name pages body chunk |}
    dir_path list_dir list_file suffix recursive w = (Ok g, w1) ->
  length pages < fuel ->
  exists bucket obj_name out w2,
    _parse_path pm dir_path = Ok (bucket, obj_name) /\
    g fuel w1 = Some (out, w2) /\
    forall path, FileEntry path ∈ out ->
      bucket = name /\ root_of obj_name +:+ path ∈ mjoin pages.
Proof.
  intros (bucket & obj_name & Hp & -> & ->)%list_dir_or_file_inv Hfuel.
  destruct (generator_for_store pm name pages body chunk bucket (root_of obj_name)
              list_dir list_file suffix recursive fuel w Hfuel) as (keys & w2 & Hg & Hk).
  exists bucket, obj_name. eexists _, w2. split; [done|]. split; [exact Hg|].
  intros path [(d & k & [=] & _)|(k & Hin & Hf)]%entries_of_spec.
  apply own_file_elem in Hf as (_ & [= ->] & _).
  apply Hk in Hin as (-> & Hstart & Hin). split; [done|].
  apply Is_true_true, startswith_split in Hstart. by rewrite <- Hstart.
Qed.

Lemma listed_files_are_keys_witness :
  exists bucket obj_name out w2,
    _parse_path None "s3://bucket/d" = Ok (bucket, obj_name) /\
    generator_for (S3.backend "bucket" [["d/x.txt"]; ["d/y/z.txt"; "e.txt"]] (fun _ => 0))
      "bucket" "d/" true true None true 3 world0 = Some (out, w2) /\
    forall path, FileEntry path ∈ out ->
      bucket = "bucket" /\
      root_of obj_name +:+ path ∈ mjoin [["d/x.txt"]; ["d/y/z.txt"; "e.txt"]].
Proof.
  apply (listed_files_are_keys None "bucket" [["d/x.txt"]; ["d/y/z.txt"; "e.txt"]]
           (fun _ => EmptyString) (fun _ => 0) "s3://bucket/d" true true None true world0
           (generator_for
              (S3.backend "bucket" [["d/x.txt"]; ["d/y/z.txt"; "e.txt"]] (fun _ => 0))
              "bucket" "d/" true true None true)
           world0 3).
  - reflexivity.
  - simpl. lia.
Defined.

(** X21: listing the root of a bucket recursively, with files and with
    no suffix, yields as files exactly the keys of the bucket that have a
    non-empty segment, each under its own name. *)
Theorem root_listing_yields_the_keys
    pm name pages body chunk dir_path list_dir w fuel :
  _parse_path pm dir_path = Ok (name, EmptyString) ->
  length pages < fuel ->
  exists out w2,
    list_dir_or_file {| path_mapping := pm; _client := S3.store name pages body chunk |}
      dir_path list_dir true None true w
    = (Ok (generator_for {| path_mapping := pm; _client := S3.store name pages body chunk |}
             name "" list_dir true None true), w) /\
    generator_for {| path_mapping := pm; _client := S3.store name pages body chunk |}
      name "" list_dir true None true fuel w = Some (out, w2) /\
    forall key,
      FileEntry key ∈ out <->
      key ∈ mjoin pages /\
      filter (fun item => item ≠ EmptyString) (Py.split Py.slash key) <> [].
Proof.
  intros Hp Hfuel.
  destruct (generator_for_store pm name pages body chunk name ""
              list_dir true None true fuel w Hfuel) as (keys & w2 & Hg & Hk).
  eexists _, w2. split; [|split; [exact Hg|]].
  { rewrite (list_dir_or_file_parsed _ _ _ _ _ _ _ name "");
      [done|by rewrite andb_false_r|done|done]. }
  pose proof own_file_at_root as Hown.
  intros key. rewrite entries_of_spec. split.
  - intros [(d & k & [=] & _)|(k & Hin & Hf)]. rewrite Hown in Hf.
    destruct (_ =? 0) eqn:E; [by apply elem_of_nil in Hf|].
    apply list_elem_of_singleton in Hf as [= ->].
    apply Hk in Hin as (_ & _ & Hin). split; [done|].
    apply Nat.eqb_neq in E. by intros Hnil; rewrite Hnil in E.
  - intros [Hin Hseg]. right. exists key. split.
    + apply Hk. unfold listed_key. by rewrite startswith_nil.
    + rewrite Hown. destruct (_ =? 0) eqn:E; [|apply list_elem_of_here].
      apply Nat.eqb_eq in E. by destruct (filter _ _).
Qed.

Lemma root_listing_yields_the_keys_witness :
  let self := S3.backend "bucket" [["a.txt"; "/"]; ["d/b.txt"]] (fun _ => 0) in
  exists out w2,
    list_dir_or_file self "s3://bucket" false true None true world0
    = (Ok (generator_for self "bucket" "" false true None true), world0) /\
    generator_for self "bucket" "" false true None true 3 world0 = Some (out, w2) /\
    forall key,
      FileEntry key ∈ out <->
      key ∈ mjoin [["a.txt"; "/"]; ["d/b.txt"]] /\
      filter (fun item => item ≠ EmptyString) (Py.split Py.slash key) <> [].
Proof.
  intros self.
  apply (root_listing_yields_the_keys None "bucket" [["a.txt"; "/"]; ["d/b.txt"]]
           (fun _ => EmptyString) (fun _ => 0) "s3://bucket" false world0 3).
  - reflexivity.
  - simpl. lia.
Defined.

(** X22: a bucket whose only key under the root is the root itself (a
    marker object for the listed directory) gives an empty listing,
    whatever the flags. *)
Theorem root_marker_is_not_listed
    pm name pages body chunk dir_path list_dir list_file suffix recursive
    w g w1 bucket obj_name fuel :
  list_dir_or_file {| path_mapping := pm; _client := S3.store name pages body chunk |}
    dir_path list_dir list_file suffix recursive w = (Ok g, w1) ->
  _parse_path pm dir_path = Ok (bucket, obj_name) ->
  (forall key, key ∈ mjoin pages -> Is_true (Py.startswith key (root_of obj_name)) ->
               key = root_of obj_name) ->
  length pages < fuel ->
  exists w2, g fuel w1 = Some ([], w2).
Proof.
  intros (bucket' & obj_name' & Hp' & -> & ->)%list_dir_or_file_inv Hp Honly Hfuel.
  cbn [path_mapping] in Hp'. rewrite Hp in Hp'. injection Hp' as <- <-.
  destruct (generator_for_store pm name pages body chunk bucket (root_of obj_name)
              list_dir list_file suffix recursive fuel w Hfuel) as (keys & w2 & Hg & Hk).
  exists w2. rewrite Hg. do 2 f_equal.
  apply elem_of_nil_inv.
  intros e [(d & k & _ & Hin & Hd)|(k & Hin & Hf)]%entries_of_spec;
    apply Hk in Hin as (_ & Hstart & Hin); rewrite (Honly k Hin Hstart) in *.
  - apply implied_dirs_elem in Hd as (_ & lvl & Hl & _).
    rewrite slice_from_all, sparse_path_of_empty in Hl. cbn in Hl. lia.
  - revert Hf. unfold own_file. cbv zeta.
    rewrite slice_from_all, sparse_path_of_empty. by intros ?%elem_of_nil.
Qed.

Lemma root_marker_is_not_listed_witness :
  exists w2,
    generator_for (S3.backend "bucket" [["d/"; "e/x.txt"]] (fun _ => 0))
      "bucket" "d/" true true None true 2 world0 = Some ([], w2).
Proof.
  apply (root_marker_is_not_listed None "bucket" [["d/"; "e/x.txt"]]
           (fun _ => EmptyString) (fun _ => 0) "s3://bucket/d" true true None true world0
           (generator_for (S3.backend "bucket" [["d/"; "e/x.txt"]] (fun _ => 0))
              "bucket" "d/" true true None true)
           world0 "bucket" "d" 2).
  - reflexivity.
  - reflexivity.
  - intros key [->|[->|[]%elem_of_nil]%elem_of_cons]%elem_of_cons; [done|].
    intros H. vm_compute in H. destruct H.
  - simpl. lia.
Defined.

(** ** Writing and reading back *)

Lemma head_bucket_of_remote r bucket :
  bucket ∈ buckets r -> head_bucket (client_of r) bucket = Ok tt.
Proof. intros H. cbn [client_of head_bucket]. by rewrite decide_True. Qed.

Lemma get_of_remote pm r filepath bucket key w :
  _parse_path pm filepath = Ok (bucket, key) ->
  (get (backend_of pm r) filepath w).1
  = match objects r !! (bucket, key) with
    | Some body => Ok body
    | None => Raise (TypeError missing_operation_name)
    end.
Proof.
  intros Hp. rewrite (get_cases (backend_of pm r) _ bucket key) by done.
  change (head_object (_client (backend_of pm r)) bucket key)
    with (match objects r !! (bucket, key) with
          | Some _ => Ok tt
          | None => Raise (ClientError "An error occurred (404) when calling the HeadObject operation: Not Found")
          end).
  change (download_fileobj (_client (backend_of pm r)) bucket key)
    with (match objects r !! (bucket, key) with
          | Some body => Ok body
          | None => Raise (ClientError "An error occurred (404) when calling the GetObject operation: Not Found")
          end).
  by destruct (objects r !! (bucket, key)).
Qed.

Lemma exists_of_remote pm r filepath bucket key w :
  _parse_path pm filepath = Ok (bucket, key) ->
  (exists_ (backend_of pm r) filepath w).1
  = match objects r !! (bucket, key) with
    | Some _ => Ok true
    | None => Raise (TypeError missing_operation_name)
    end.
Proof.
  intros Hp. unfold exists_, mbind, M_bind, lift at 1. cbn [backend_of path_mapping].
  rewrite Hp, _check_object_cases.
  change (head_object (_client (backend_of pm r)) bucket key)
    with (match objects r !! (bucket, key) with
          | Some _ => Ok tt
          | None => Raise (ClientError "An error occurred (404) when calling the HeadObject operation: Not Found")
          end).
  by destruct (objects r !! (bucket, key)).
Qed.

Lemma put_cases pm obj filepath bucket key r w :
  _parse_path pm filepath = Ok (bucket, key) ->
  bucket ∈ buckets r ->
  put pm obj filepath r w
  = (Ok tt,
     {| requests := requests w ++ [HeadBucket bucket];
        files := files w; tempfiles := tempfiles w |},
     {| buckets := buckets r; objects := <[(bucket, key) := obj]> (objects r);
        calls := calls r ++ [UploadFileobj bucket key obj] |}).
Proof.
  intros Hp Hb. unfold put. rewrite Hp, _check_bucket_cases.
  cbn [backend_of _client]. rewrite (head_bucket_of_remote _ _ Hb).
  unfold upload_fileobj. by rewrite decide_True.
Qed.

(** X23: after [put] on a path in a bucket the store has, [get] on the
    same path gives the bytes put and [exists] gives [True], whatever was
    stored under the key before; the other objects and the buckets are as
    they were, and [put] sent one bucket probe and one upload. *)
Theorem put_then_get pm obj filepath bucket key r w :
  _parse_path pm filepath = Ok (bucket, key) ->
  bucket ∈ buckets r ->
  exists w1 r1,
    put pm obj filepath r w = (Ok tt, w1, r1) /\
    (forall w', (get (backend_of pm r1) filepath w').1 = Ok obj) /\
    (forall w', (exists_ (backend_of pm r1) filepath w').1 = Ok true) /\
    buckets r1 = buckets r /\
    (forall other, other <> (bucket, key) -> objects r1 !! other = objects r !! other) /\
    calls r1 = calls r ++ [UploadFileobj bucket key obj] /\
    requests w1 = requests w ++ [HeadBucket bucket].
Proof.
  intros Hp Hb. rewrite (put_cases _ _ _ _ _ _ _ Hp Hb). eexists _, _. split; [done|].
  cbn [buckets objects calls requests]. repeat split; try done.
  - intros w'. rewrite (get_of_remote _ _ _ _ _ _ Hp). cbn [objects].
    by rewrite lookup_insert_eq.
  - intros w'. rewrite (exists_of_remote _ _ _ _ _ _ Hp). cbn [objects].
    by rewrite lookup_insert_eq.
  - intros other Hne. by rewrite lookup_insert_ne.
Qed.

Lemma put_then_get_witness :
  let r := {| buckets := {["bucket"]}; objects := {[("bucket", "a.txt") := "old"]};
              calls := [] |} in
  exists w1 r1,
    put None "new" "s3://bucket/a.txt" r world0 = (Ok tt, w1, r1) /\
    (forall w', (get (backend_of None r1) "s3://bucket/a.txt" w').1 = Ok "new") /\
    (forall w', (exists_ (backend_of None r1) "s3://bucket/a.txt" w').1 = Ok true) /\
    buckets r1 = buckets r /\
    (forall other, other <> ("bucket", "a.txt") -> objects r1 !! other = objects r !! other) /\
    calls r1 = calls r ++ [UploadFileobj "bucket" "a.txt" "new"] /\
    requests w1 = requests world0 ++ [HeadBucket "bucket"].
Proof.
  intros r.
  apply (put_then_get None "new" "s3://bucket/a.txt" "bucket" "a.txt" r world0).
  - reflexivity.
  - vm_compute. set_solver.
Defined.

(** X24: [put] on a path whose bucket the store does not have raises
    after the one bucket probe; no upload is attempted and the store is
    as it was.  The error is the [TypeError] that the [except] clause of
    [_check_bucket] ends in, not a [ClientError]. *)
Theorem put_to_missing_bucket pm obj filepath bucket key r w :
  _parse_path pm filepath = Ok (bucket, key) ->
  bucket ∉ buckets r ->
  put pm obj filepath r w
  = (Raise (TypeError missing_operation_name),
     {| requests := requests w ++ [HeadBucket bucket];
        files := files w; tempfiles := tempfiles w |},
     r).
Proof.
  intros Hp Hb. unfold put. rewrite Hp, _check_bucket_cases.
  cbn [backend_of _client client_of head_bucket]. by rewrite decide_False.
Qed.

Lemma put_to_missing_bucket_witness :
  let r := {| buckets := {["bucket"]}; objects := ∅; calls := [] |} in
  put None "new" "s3://other/a.txt" r world0
  = (Raise (TypeError missing_operation_name),
     {| requests := requests world0 ++ [HeadBucket "other"];
        files := files world0; tempfiles := tempfiles world0 |},
     r).
Proof.
  intros r. apply (put_to_missing_bucket None "new" "s3://other/a.txt" "other" "a.txt" r world0).
  - reflexivity.
  - vm_compute. set_solver.
Defined.

(** X25: [remove] on a path in a bucket the store has sends the delete
    and nothing else, without any probe; afterwards the key is gone, so
    [exists] on the path raises ([TypeError], from the [except] clause of
    [_check_object]), and the other objects are as they were.  Removing a
    key that is not there succeeds the same way. *)
Theorem remove_then_exists pm filepath bucket key r w :
  _parse_path pm filepath = Ok (bucket, key) ->
  bucket ∈ buckets r ->
  exists r1,
    remove pm filepath r w = (Ok tt, w, r1) /\
    objects r1 !! (bucket, key) = None /\
    (forall other, other <> (bucket, key) -> objects r1 !! other = objects r !! other) /\
    buckets r1 = buckets r /\
    calls r1 = calls r ++ [DeleteObject bucket key] /\
    (forall w',
        (exists_ (backend_of pm r1) filepath w').1
        = Raise (TypeError missing_operation_name)).
Proof.
  intros Hp Hb. unfold remove, delete_object. rewrite Hp, decide_True by done.
  eexists. split; [done|]. cbn [buckets objects calls].
  split; [apply lookup_delete_eq|]. split; [|repeat split].
  - intros other Hne. by rewrite lookup_delete_ne.
  - intros w'. rewrite (exists_of_remote _ _ _ _ _ _ Hp). cbn [objects].
    by rewrite lookup_delete_eq.
Qed.

Lemma remove_then_exists_witness :
  let r := {| buckets := {["bucket"]}; objects := {[("bucket", "a.txt") := "old"]};
              calls := [] |} in
  exists r1,
    remove None "s3://bucket/a.txt" r world0 = (Ok tt, world0, r1) /\
    objects r1 !! ("bucket", "a.txt") = None /\
    (forall other, other <> ("bucket", "a.txt") -> objects r1 !! other = objects r !! other) /\
    buckets r1 = buckets r /\
    calls r1 = calls r ++ [DeleteObject "bucket" "a.txt"] /\
    (forall w',
        (exists_ (backend_of None r1) "s3://bucket/a.txt" w').1
        = Raise (TypeError missing_operation_name)).
Proof.
  intros r. apply (remove_then_exists None "s3://bucket/a.txt" "bucket" "a.txt" r world0).
  - reflexivity.
  - vm_compute. set_solver.
Defined.

(** X26: text put with an encoding and read back with the same encoding
    comes back unchanged, whenever the encoding can encode the text and
    decodes the bytes to the text again. *)
Theorem put_text_then_get_text pm encoding obj data filepath bucket key r w :
  to_bytes encoding obj = Ok data ->
  to_str encoding data = Ok obj ->
  _parse_path pm filepath = Ok (bucket, key) ->
  bucket ∈ buckets r ->
  exists w1 r1,
    put_text pm encoding obj filepath r w = (Ok tt, w1, r1) /\
    calls r1 = calls r ++ [UploadFileobj bucket key data] /\
    forall w', (get_text (backend_of pm r1) encoding filepath w').1 = Ok obj.
Proof.
  intros He Hd Hp Hb. unfold put_text. rewrite He, (put_cases _ _ _ _ _ _ _ Hp Hb).
  eexists _, _. split; [done|]. split; [done|].
  intros w'. unfold get_text, mbind, M_bind.
  pose proof (get_of_remote pm
                {| buckets := buckets r; objects := <[(bucket, key) := data]> (objects r);
                   calls := calls r ++ [UploadFileobj bucket key data] |}
                filepath bucket key w' Hp) as Hg.
  cbn [objects] in Hg. rewrite lookup_insert_eq in Hg.
  destruct (get _ filepath w') as [res w'']. cbn [fst] in Hg. subst res.
  unfold lift. by rewrite Hd.
Qed.

Lemma put_text_then_get_text_witness :
  let r := {| buckets := {["bucket"]}; objects := ∅; calls := [] |} in
  let utf8 := {| to_bytes := fun s => Ok s; to_str := fun s => Ok s |} in
  exists w1 r1,
    put_text None utf8 "text" "s3://bucket/a.txt" r world0 = (Ok tt, w1, r1) /\
    calls r1 = calls r ++ [UploadFileobj "bucket" "a.txt" "text"] /\
    forall w', (get_text (backend_of None r1) utf8 "s3://bucket/a.txt" w').1 = Ok "text".
Proof.
  intros r utf8.
  apply (put_text_then_get_text None utf8 "text" "text" "s3://bucket/a.txt"
           "bucket" "a.txt" r world0); first [reflexivity | vm_compute; set_solver].
Defined.

Lemma elem_of_remote_keys r b prefix k :
  k ∈ remote_keys r b prefix <->
  is_Some (objects r !! (b, k)) /\ Is_true (Py.startswith k prefix).
Proof.
  unfold remote_keys. rewrite list_elem_of_omap. split.
  - intros ([[b' k'] body] & Hin%elem_of_map_to_list & Hf). cbn [fst snd] in Hf.
    case_decide as Hd; [|done]. destruct Hd as [-> Hs]. injection Hf as ->.
    split; [by eexists|done].
  - intros [[body Hb] Hs]. exists ((b, k), body). split; [by apply elem_of_map_to_list|].
    cbn [fst snd]. by rewrite decide_True.
Qed.

Lemma root_listing_of_remote pm r b list_dir fuel w :
  exists out w',
    generator_for (backend_of pm r) b "" list_dir true None true (S fuel) w
    = Some (out, w') /\
    forall key,
      FileEntry key ∈ out <->
      is_Some (objects r !! (b, key)) /\
      filter (fun item => item ≠ EmptyString) (Py.split Py.slash key) <> [].
Proof.
  pose proof (_list_dir_or_file_eq (backend_of pm r) b "" "" list_dir true None true
                (S fuel) None ∅ w) as H.
  assert (visited_keys (paginate (_client (backend_of pm r)) b "") (S fuel) None
          = Some (remote_keys r b "")) as Hv.
  { cbn [visited_keys backend_of _client client_of paginate last_token fold_left
         NextContinuationToken].
    rewrite response_keys_cons. cbn [Contents HTTPStatusCode response_keys].
    rewrite app_nil_r. by destruct (remote_keys r b ""). }
  rewrite Hv in H. destruct H as [w' H].
  eexists _, w'. split; [unfold generator_for; by rewrite H|].
  intros key. rewrite entries_of_spec. split.
  - intros [(d & k & [=] & _)|(k & Hin & Hf)]. rewrite own_file_at_root in Hf.
    destruct (_ =? 0) eqn:E; [by apply elem_of_nil in Hf|].
    apply list_elem_of_singleton in Hf as [= ->].
    apply elem_of_remote_keys in Hin as [Hin _]. split; [done|].
    apply Nat.eqb_neq in E. by intros Hnil; rewrite Hnil in E.
  - intros [Hin Hseg]. right. exists key. split.
    + apply elem_of_remote_keys. by rewrite startswith_nil.
    + rewrite own_file_at_root. destruct (_ =? 0) eqn:E; [|apply list_elem_of_here].
      apply Nat.eqb_eq in E. by destruct (filter _ _).
Qed.

(** X27: [put], list, [remove], list: after [put] a recursive listing of
    the root of the bucket yields the key as a file, and after [remove]
    on the same path it no longer does (for a key with a non-empty
    segment, in a bucket the store has). *)
Theorem put_shows_and_remove_hides pm obj filepath bucket key list_dir r w :
  _parse_path pm filepath = Ok (bucket, key) ->
  bucket ∈ buckets r ->
  filter (fun item => item ≠ EmptyString) (Py.split Py.slash key) <> [] ->
  exists w1 r1 r2,
    put pm obj filepath r w = (Ok tt, w1, r1) /\
    remove pm filepath r1 w1 = (Ok tt, w1, r2) /\
    (forall fuel w', exists out w'',
        generator_for (backend_of pm r1) bucket "" list_dir true None true (S fuel) w'
        = Some (out, w'') /\ FileEntry key ∈ out) /\
    (forall fuel w', exists out w'',
        generator_for (backend_of pm r2) bucket "" list_dir true None true (S fuel) w'
        = Some (out, w'') /\ FileEntry key ∉ out).
Proof.
  intros Hp Hb Hseg. rewrite (put_cases _ _ _ _ _ _ _ Hp Hb). eexists _, _, _.
  split; [done|]. split.
  { unfold remove, delete_object. rewrite Hp. cbn [buckets]. by rewrite decide_True. }
  split; intros fuel w'.
  - destruct (root_listing_of_remote pm
                {| buckets := buckets r; objects := <[(bucket, key) := obj]> (objects r);
                   calls := calls r ++ [UploadFileobj bucket key obj] |}
                bucket list_dir fuel w') as (out & w'' & Hg & Hout).
    exists out, w''. split; [exact Hg|]. apply Hout. split; [|done].
    cbn [objects]. by rewrite lookup_insert_eq.
  - match goal with
    | |- context [backend_of pm ?r2] =>
        destruct (root_listing_of_remote pm r2 bucket list_dir fuel w')
          as (out & w'' & Hg & Hout)
    end.
    exists out, w''. split; [exact Hg|]. rewrite Hout. cbn [objects].
    rewrite lookup_delete_eq. by intros [[? [=]] _].
Qed.

Lemma put_shows_and_remove_hides_witness :
  let r := {| buckets := {["bucket"]}; objects := ∅; calls := [] |} in
  exists w1 r1 r2,
    put None "new" "s3://bucket/d/a.txt" r world0 = (Ok tt, w1, r1) /\
    remove None "s3://bucket/d/a.txt" r1 w1 = (Ok tt, w1, r2) /\
    (forall fuel w', exists out w'',
        generator_for (backend_of None r1) "bucket" "" true true None true (S fuel) w'
        = Some (out, w'') /\ FileEntry "d/a.txt" ∈ out) /\
    (forall fuel w', exists out w'',
        generator_for (backend_of None r2) "bucket" "" true true None true (S fuel) w'
        = Some (out, w'') /\ FileEntry "d/a.txt" ∉ out).
Proof.
  intros r.
  apply (put_shows_and_remove_hides None "new" "s3://bucket/d/a.txt" "bucket" "d/a.txt"
           true r world0).
  - reflexivity.
  - vm_compute. set_solver.
  - vm_compute. discriminate.
Defined.

(** ** A paginator that delivers several pages *)

(** X28: [next_token] keeps the last token seen in the loop, also when
    later responses of the same paginator carry none.  So when one
    paginator delivers a page with a token and then a final page without
    one, the generator starts again at that token and processes the keys
    of the final page a second time: its files are yielded twice. *)
Theorem final_page_is_processed_twice
    self bucket root list_dir list_file suffix recursive r1 r2 t fuel w :
  paginate (_client self) bucket root None = [r1; r2] ->
  NextContinuationToken r1 = Some t ->
  NextContinuationToken r2 = None ->
  paginate (_client self) bucket root (Some t) = [r2] ->
  exists w',
    generator_for self bucket root list_dir list_file suffix recursive (S (S fuel)) w
    = Some ((process_contents root list_dir list_file suffix recursive
               (response_keys [r1] ++ response_keys [r2] ++ response_keys [r2]) ∅).1,
            w') /\
    requests w' = requests w ++ [ListObjectsV2 bucket root None;
                                 ListObjectsV2 bucket root (Some t)].
Proof.
  intros H0 H1 H2 Ht.
  pose proof (_list_dir_or_file_eq self bucket root root list_dir list_file suffix
                recursive (S (S fuel)) None ∅ w) as H.
  assert (visited_keys (paginate (_client self) bucket root) (S (S fuel)) None
          = Some (response_keys [r1] ++ response_keys [r2] ++ response_keys [r2])) as Hv.
  { cbn [visited_keys]. rewrite H0. cbn [last_token fold_left]. rewrite H1, H2, Ht.
    cbn [last_token fold_left]. rewrite H2.
    rewrite (response_keys_cons r1 [r2]), (response_keys_cons r1 []), app_nil_r.
    by rewrite <- app_assoc. }
  rewrite Hv in H. destruct H as [w' H]. exists w'.
  split; [unfold generator_for; by rewrite H|].
  revert H. cbn [_list_dir_or_file]. rewrite H0.
  rewrite on_responses_eq. cbn [last_token fold_left]. rewrite H1, H2.
  destruct fuel; cbn [_list_dir_or_file]; rewrite Ht, on_responses_eq;
    cbn [last_token fold_left]; rewrite H2; intros [= _ _ <-];
    cbn [issue snd requests]; by rewrite <- app_assoc.
Qed.

Lemma final_page_is_processed_twice_witness :
  let self := S3.backend "bucket" [["d/a"]; ["d/b"]] (fun _ => 1) in
  let r1 := {| NextContinuationToken := Some 1; HTTPStatusCode := 200;
               Contents := Some ["d/a"] |} in
  let r2 := {| NextContinuationToken := None; HTTPStatusCode := 200;
               Contents := Some ["d/b"] |} in
  exists w',
    generator_for self "bucket" "d/" true true None false 2 world0
    = Some ((process_contents "d/" true true None false
               (response_keys [r1] ++ response_keys [r2] ++ response_keys [r2]) ∅).1,
            w') /\
    requests w' = requests world0 ++ [ListObjectsV2 "bucket" "d/" None;
                                      ListObjectsV2 "bucket" "d/" (Some 1)].
Proof.
  intros self r1 r2.
  apply (final_page_is_processed_twice self "bucket" "d/" true true None false
           r1 r2 1 0 world0); reflexivity.
Defined.

(** ** [join_path] gives a normalised path *)

Lemma drop_last_has_char c s :
  has_char c s = false -> has_char c (Py.drop_last s) = false.
Proof.
  induction s as [|a s IH]; [done|]. cbn [has_char].
  intros [Ha Hs]%orb_false_elim. destruct s as [|b s]; [done|].
  change (Py.drop_last (String a (String b s))) with (String a (Py.drop_last (String b s))).
  cbn [has_char]. by rewrite Ha, IH.
Qed.

Lemma join_has_char c l :
  c <> Py.slash ->
  Forall (fun x => has_char c x = false) l -> has_char c (Py.join "/" l) = false.
Proof.
  intros Hc. induction l as [|x l IH]; [done|]. intros [Hx Hl]%Forall_cons.
  destruct l as [|y l]; [done|].
  rewrite join_cons, !has_char_app, Hx, IH by done. cbn [has_char orb].
  rewrite !orb_false_r. apply Ascii.eqb_neq. intros Heq. apply Hc. by rewrite <- Heq.
Qed.

(** X29: without a path mapping, whatever [join_path] returns holds no
    backslash, so normalising it again changes nothing: the base and
    every joined part come out normalised. *)
Theorem join_path_is_normalised self filepath filepaths :
  path_mapping self = None ->
  has_char Py.backslash (join_path self filepath filepaths) = false /\
  _format_path (join_path self filepath filepaths) = join_path self filepath filepaths.
Proof.
  intros Hpm.
  assert (has_char Py.backslash (join_path self filepath filepaths) = false) as H.
  { unfold join_path. rewrite Hpm. unfold _map_path. cbv zeta.
    apply join_has_char; [done|]. constructor.
    - destruct (Py.endswith _ "/"); [apply drop_last_has_char|]; apply sub_backslashes_clean.
    - apply Forall_forall. intros x (p & -> & _)%list_elem_of_fmap.
      apply sub_backslashes_clean. }
  split; [done|]. by apply sub_backslashes_id.
Qed.

Lemma join_path_is_normalised_witness :
  has_char Py.backslash
    (join_path (S3.backend "b" [] (fun _ => 0)) "s3:\\b\a\" ["c\d"; "e"]) = false /\
  _format_path (join_path (S3.backend "b" [] (fun _ => 0)) "s3:\\b\a\" ["c\d"; "e"])
  = join_path (S3.backend "b" [] (fun _ => 0)) "s3:\\b\a\" ["c\d"; "e"].
Proof.
  apply (join_path_is_normalised (S3.backend "b" [] (fun _ => 0)) "s3:\\b\a\" ["c\d"; "e"]).
  reflexivity.
Defined.

(** ** The same keys in other pages *)

(** X30: two paged stores that hold the same keys, cut into pages in any
    two ways and delivered any number of pages at a time, give listings
    that end and hand the caller the same set of strings; and when no
    key ends in a slash, no string ending in a slash comes twice in
    either listing. *)
Theorem same_keys_give_same_listing
    pm name body1 body2 chunk1 chunk2 (pages1 pages2 : list (list string))
    dir_path list_dir list_file suffix recursive w1 w2 g1 g2 w1' w2' fuel1 fuel2 :
  (forall k, k ∈ mjoin pages1 <-> k ∈ mjoin pages2) ->
  list_dir_or_file {| path_mapping := pm; _client := S3.store name pages1 body1 chunk1 |}
    dir_path list_dir list_file suffix recursive w1 = (Ok g1, w1') ->
  list_dir_or_file {| path_mapping := pm; _client := S3.store name pages2 body2 chunk2 |}
    dir_path list_dir list_file suffix recursive w2 = (Ok g2, w2') ->
  length pages1 < fuel1 ->
  length pages2 < fuel2 ->
  exists out1 out2 w1'' w2'',
    g1 fuel1 w1' = Some (out1, w1'') /\
    g2 fuel2 w2' = Some (out2, w2'') /\
    (forall s, s ∈ render <$> out1 <-> s ∈ render <$> out2) /\
    ((forall k, k ∈ mjoin pages1 -> Py.endswith k "/" = false) ->
     NoDup (filter (fun s => Is_true (Py.endswith s "/")) (render <$> out1)) /\
     NoDup (filter (fun s => Is_true (Py.endswith s "/")) (render <$> out2))).
Proof.
  intros Hsame H1 H2 Hf1 Hf2.
  apply list_dir_or_file_inv in H1 as (bucket & obj_name & Hp & -> & ->).
  apply list_dir_or_file_inv in H2 as (bucket' & obj_name' & Hp' & -> & ->).
  cbn [path_mapping] in Hp, Hp'. rewrite Hp in Hp'. injection Hp' as <- <-.
  destruct (generator_for_store pm name pages1 body1 chunk1 bucket (root_of obj_name)
              list_dir list_file suffix recursive fuel1 w1 Hf1) as (keys1 & v1 & -> & Hk1).
  destruct (generator_for_store pm name pages2 body2 chunk2 bucket (root_of obj_name)
              list_dir list_file suffix recursive fuel2 w2 Hf2) as (keys2 & v2 & -> & Hk2).
  assert (forall k, k ∈ keys1 <-> k ∈ keys2) as Hkeys.
  { intros k. rewrite Hk1, Hk2. unfold listed_key. by rewrite Hsame. }
  pose proof (run_over_same_set (root_of obj_name) list_dir list_file suffix recursive
                keys1 keys2 Hkeys) as Hout.
  eexists _, _, v1, v2. split; [done|]. split; [done|]. split.
  - intros s. rewrite !list_elem_of_fmap. by setoid_rewrite Hout.
  - intros Hslash. split; apply run_over_slash_once; intros k Hk; apply Hslash.
    + by apply Hk1 in Hk as (_ & _ & Hk).
    + apply Hk2 in Hk as (_ & _ & Hk). by apply Hsame.
Qed.

Lemma same_keys_give_same_listing_witness :
  let one := [["d/x.txt"; "d/y/z.txt"; "d/y/w.txt"]] in
  let three := [["d/x.txt"]; ["d/y/z.txt"]; ["d/y/w.txt"]] in
  exists out1 out2 w1 w2,
    generator_for (S3.backend "bucket" one (fun _ => 0)) "bucket" "d/"
      true true None true 2 world0 = Some (out1, w1) /\
    generator_for (S3.backend "bucket" three (fun _ => 0)) "bucket" "d/"
      true true None true 4 world0 = Some (out2, w2) /\
    (forall s, s ∈ render <$> out1 <-> s ∈ render <$> out2) /\
    ((forall k, k ∈ mjoin one -> Py.endswith k "/" = false) ->
     NoDup (filter (fun s => Is_true (Py.endswith s "/")) (render <$> out1)) /\
     NoDup (filter (fun s => Is_true (Py.endswith s "/")) (render <$> out2))).
Proof.
  intros one three.
  apply (same_keys_give_same_listing None "bucket"
           (fun _ => EmptyString) (fun _ => EmptyString) (fun _ => 0) (fun _ => 0)
           one three "s3://bucket/d" true true None true world0 world0
           (generator_for (S3.backend "bucket" one (fun _ => 0)) "bucket" "d/"
              true true None true)
           (generator_for (S3.backend "bucket" three (fun _ => 0)) "bucket" "d/"
              true true None true)
           world0 world0 2 4).
  - intros k. simpl. reflexivity.
  - reflexivity.
  - reflexivity.
  - simpl. lia.
  - simpl. lia.
Defined.
